(** * photfdtd: the FDTD grid ([photfdtd/fdtd/grid.py])

    A shallow embedding of the [Grid] class: its constructor, the unit
    conversions, the four curl operators, the leapfrog step, the run loop,
    [reset] and the region-assignment operator.

    Numbers.  The fields are numpy arrays of floating-point numbers and the
    scalars are Python floats.  The arithmetic the class uses is collected in
    the interface [Arith]; two instances are given:
      - [binary64], IEEE 754 double precision on the kernel's primitive
        floats: what the program computes with;
      - [exact], the canonical rationals [Qc]: the same formulas without
        rounding and without infinities.
    Definitions and structural theorems are stated over any [Arith];
    concrete runs and the facts that depend on the arithmetic are stated in
    [binary64]; [exact] only serves a remark on [reset]. *)

From Stdlib Require Import ZArith QArith Qcanon Qround Floats Bool List Lia.
Import ListNotations.

Set Implicit Arguments.
#[local] Set Warnings "-inexact-float".
Local Open Scope Z_scope.

(** ** Python values, exceptions and results *)

Inductive exc : Type :=
| ValueError | TypeError | KeyError | AttributeError
| ZeroDivisionError | OverflowError.

Inductive result (A : Type) : Type :=
| Ok (a : A)
| Raise (e : exc).
Arguments Ok {A} a.
Arguments Raise {A} e.

(** A small monad interface: [result] for pure fallible code, and further
    down an exception-and-state monad for the methods that mutate the grid. *)
Class Monad (m : Type -> Type) : Type := {
  ret : forall {A}, A -> m A;
  bind : forall {A B}, m A -> (A -> m B) -> m B
}.

Declare Scope monad_scope.
Delimit Scope monad_scope with monad.
Notation "x <- c1 ;; c2" := (bind c1 (fun x => c2))
  (at level 61, c1 at next level, right associativity) : monad_scope.
Notation "c1 ;; c2" := (bind c1 (fun _ => c2))
  (at level 61, right associativity) : monad_scope.
Local Open Scope monad_scope.

#[export] Instance Monad_result : Monad result := {
  ret := fun A a => Ok a;
  bind := fun A B r k => match r with Ok a => k a | Raise e => Raise e end
}.

(** ** The arithmetic interface *)

(** The real number a machine number stands for, when it stands for one. *)
Inductive real_value : Type :=
| Finite (q : Q)
| Infinite
| NotANumber.

Class Arith (F : Type) : Type := {
  of_Z : Z -> F;            (* float(n) for a Python int n *)
  add : F -> F -> F;
  sub : F -> F -> F;
  mul : F -> F -> F;
  div : F -> F -> F;        (* numpy's true division: total *)
  eqb : F -> F -> bool;     (* == *)
  ltb : F -> F -> bool;     (* <  *)
  value : F -> real_value
}.

(** Truncation toward zero of a rational: what [int(x)] keeps of a float. *)
Definition Qtrunc (q : Q) : Z := Z.quot (Qnum q) (Zpos (Qden q)).

Section PythonArithmetic.
Context {F : Type} `{Arith F}.

(** Float literals of the source, as correctly rounded quotients. *)
Definition lit_0_0 : F := of_Z 0.
Definition lit_1_0 : F := of_Z 1.
Definition lit_0_5 : F := div (of_Z 1) (of_Z 2).
Definition lit_0_99 : F := div (of_Z 99) (of_Z 100).

(** [x / y] on Python floats raises on a zero divisor. *)
Definition py_truediv (x y : F) : result F :=
  if eqb y lit_0_0 then Raise ZeroDivisionError else Ok (div x y).

(** [x ** 2]: [None ** 2] is a type error; a finite float whose square
    overflows raises [OverflowError]. *)
Definition py_pow2 (x : option F) : result F :=
  match x with
  | None => Raise TypeError
  | Some v =>
      let r := mul v v in
      match value v, value r with
      | Finite _, Infinite => Raise OverflowError
      | _, _ => Ok r
      end
  end.

(** [int(x)] of a float: truncation toward zero; NaN and the infinities
    have no integer. *)
Definition py_int (x : F) : result Z :=
  match value x with
  | Finite q => Ok (Qtrunc q)
  | Infinite => Raise OverflowError
  | NotANumber => Raise ValueError
  end.

(** [int(b)] of a Python bool. *)
Definition int_of_bool (b : bool) : Z := if b then 1 else 0.
End PythonArithmetic.

(** *** IEEE 754 binary64 *)

Definition float_of_Z (z : Z) : float :=
  SF2Prim (binary_normalize prec emax z 0 false).

Definition float_value (x : float) : real_value :=
  match Prim2SF x with
  | S754_zero _ => Finite 0
  | S754_finite s m e =>
      Finite (inject_Z (if s then Zneg m else Zpos m) * Qpower 2 e)
  | S754_infinity _ => Infinite
  | S754_nan => NotANumber
  end.

#[export] Instance binary64 : Arith float := {
  of_Z := float_of_Z;
  add := PrimFloat.add;
  sub := PrimFloat.sub;
  mul := PrimFloat.mul;
  div := PrimFloat.div;
  eqb := PrimFloat.eqb;
  ltb := PrimFloat.ltb;
  value := float_value
}.

(** *** Exact rationals *)

Definition Qc_ltb (a b : Qc) : bool :=
  match (a ?= b)%Qc with Lt => true | _ => false end.

#[export] Instance exact : Arith Qc := {
  of_Z := fun z => Q2Qc (inject_Z z);
  add := Qcplus;
  sub := Qcminus;
  mul := Qcmult;
  div := Qcdiv;
  eqb := Qc_eq_bool;
  ltb := Qc_ltb;
  value := fun q => Finite (this q)
}.

(** ** Tensors *)

(** A field tensor of shape [(Nx, Ny, Nz, 3)] is read through its index
    function; the shape is kept beside it and only indices inside the shape
    are meaningful. *)
Definition tensor (F : Type) : Type := Z -> Z -> Z -> Z -> F.
Definition tensor3 (F : Type) : Type := Z -> Z -> Z -> F.

Definition in_range (n i : Z) : bool := (0 <=? i) && (i <? n).

(** The three slices the curls use along an axis. *)
Inductive slice_ : Type :=
| All      (* [:]   *)
| From1    (* [1:]  *)
| ToM1.    (* [:-1] *)

(** Is index [j] of an axis of length [n] selected by the slice? *)
Definition sl_in (s : slice_) (n j : Z) : bool :=
  match s with
  | All => in_range n j
  | From1 => (1 <=? j) && (j <? n)
  | ToM1 => (0 <=? j) && (j <? n - 1)
  end.

(** The index selected at position [p] of the slice, and back. *)
Definition sl_at (s : slice_) (p : Z) : Z :=
  match s with From1 => p + 1 | _ => p end.
Definition sl_pos (s : slice_) (j : Z) : Z :=
  match s with From1 => j - 1 | _ => j end.

Section Tensors.
Context {F : Type} `{Arith F}.
Variables Nx Ny Nz : Z.

(** [bd.zeros(shape)] and [bd.ones(shape)]. *)
Definition zeros : tensor F := fun _ _ _ _ => lit_0_0.
Definition ones : tensor F := fun _ _ _ _ => lit_1_0.

(** [t[sx, sy, sz, c]] *)
Definition getitem (t : tensor F) (sx sy sz : slice_) (c : Z) : tensor3 F :=
  fun p q r => t (sl_at sx p) (sl_at sy q) (sl_at sz r) c.

Definition selected (sx sy sz : slice_) (c : Z) (i j k c' : Z) : bool :=
  (c' =? c) && sl_in sx Nx i && sl_in sy Ny j && sl_in sz Nz k.

(** [t[sx, sy, sz, c] += v] and [t[sx, sy, sz, c] -= v] *)
Definition iadd (t : tensor F) (sx sy sz : slice_) (c : Z) (v : tensor3 F)
  : tensor F :=
  fun i j k c' =>
    if selected sx sy sz c i j k c'
    then add (t i j k c') (v (sl_pos sx i) (sl_pos sy j) (sl_pos sz k))
    else t i j k c'.

Definition isub (t : tensor F) (sx sy sz : slice_) (c : Z) (v : tensor3 F)
  : tensor F :=
  fun i j k c' =>
    if selected sx sy sz c i j k c'
    then sub (t i j k c') (v (sl_pos sx i) (sl_pos sy j) (sl_pos sz k))
    else t i j k c'.

Definition t3_sub (a b : tensor3 F) : tensor3 F :=
  fun p q r => sub (a p q r) (b p q r).
Definition t3_div (a : tensor3 F) (s : F) : tensor3 F :=
  fun p q r => div (a p q r) s.

(** *** The curl operators *)

Definition curl_E (E : tensor F) : tensor F :=
  let curl := zeros in
  let curl := iadd curl All ToM1 All 0
    (t3_sub (getitem E All From1 All 2) (getitem E All ToM1 All 2)) in
  let curl := isub curl All All ToM1 0
    (t3_sub (getitem E All All From1 1) (getitem E All All ToM1 1)) in
  let curl := iadd curl All All ToM1 1
    (t3_sub (getitem E All All From1 0) (getitem E All All ToM1 0)) in
  let curl := isub curl ToM1 All All 1
    (t3_sub (getitem E From1 All All 2) (getitem E ToM1 All All 2)) in
  let curl := iadd curl ToM1 All All 2
    (t3_sub (getitem E From1 All All 1) (getitem E ToM1 All All 1)) in
  let curl := isub curl All ToM1 All 2
    (t3_sub (getitem E All From1 All 0) (getitem E All ToM1 All 0)) in
  curl.

Definition curl_H (H0 : tensor F) : tensor F :=
  let curl := zeros in
  let curl := iadd curl All From1 All 0
    (t3_sub (getitem H0 All From1 All 2) (getitem H0 All ToM1 All 2)) in
  let curl := isub curl All All From1 0
    (t3_sub (getitem H0 All All From1 1) (getitem H0 All All ToM1 1)) in
  let curl := iadd curl All All From1 1
    (t3_sub (getitem H0 All All From1 0) (getitem H0 All All ToM1 0)) in
  let curl := isub curl From1 All All 1
    (t3_sub (getitem H0 From1 All All 2) (getitem H0 ToM1 All All 2)) in
  let curl := iadd curl From1 All All 2
    (t3_sub (getitem H0 From1 All All 1) (getitem H0 ToM1 All All 1)) in
  let curl := isub curl All From1 All 2
    (t3_sub (getitem H0 All From1 All 0) (getitem H0 All ToM1 All 0)) in
  curl.

Variables grid_spacing_x grid_spacing_y grid_spacing_z : F.

Definition curl_E_with_nonuniform_grid (E : tensor F) : tensor F :=
  let curl := zeros in
  let curl := iadd curl All ToM1 All 0
    (t3_div (t3_sub (getitem E All From1 All 2) (getitem E All ToM1 All 2))
            grid_spacing_y) in
  let curl := isub curl All All ToM1 0
    (t3_div (t3_sub (getitem E All All From1 1) (getitem E All All ToM1 1))
            grid_spacing_z) in
  let curl := iadd curl All All ToM1 1
    (t3_div (t3_sub (getitem E All All From1 0) (getitem E All All ToM1 0))
            grid_spacing_z) in
  let curl := isub curl ToM1 All All 1
    (t3_div (t3_sub (getitem E From1 All All 2) (getitem E ToM1 All All 2))
            grid_spacing_x) in
  let curl := iadd curl ToM1 All All 2
    (t3_div (t3_sub (getitem E From1 All All 1) (getitem E ToM1 All All 1))
            grid_spacing_x) in
  let curl := isub curl All ToM1 All 2
    (t3_div (t3_sub (getitem E All From1 All 0) (getitem E All ToM1 All 0))
            grid_spacing_y) in
  curl.

Definition curl_H_with_nonuniform_grid (H0 : tensor F) : tensor F :=
  let curl := zeros in
  let curl := iadd curl All From1 All 0
    (t3_div (t3_sub (getitem H0 All From1 All 2) (getitem H0 All ToM1 All 2))
            grid_spacing_y) in
  let curl := isub curl All All From1 0
    (t3_div (t3_sub (getitem H0 All All From1 1) (getitem H0 All All ToM1 1))
            grid_spacing_z) in
  let curl := iadd curl All All From1 1
    (t3_div (t3_sub (getitem H0 All All From1 0) (getitem H0 All All ToM1 0))
            grid_spacing_z) in
  let curl := isub curl From1 All All 1
    (t3_div (t3_sub (getitem H0 From1 All All 2) (getitem H0 ToM1 All All 2))
            grid_spacing_x) in
  let curl := iadd curl From1 All All 2
    (t3_div (t3_sub (getitem H0 From1 All All 1) (getitem H0 ToM1 All All 1))
            grid_spacing_x) in
  let curl := isub curl All From1 All 2
    (t3_div (t3_sub (getitem H0 All From1 All 0) (getitem H0 All ToM1 All 0))
            grid_spacing_y) in
  curl.
End Tensors.

(** ** The grid *)

(** Python numbers as the conversions see them: [isinstance(v, int)] or not. *)
Inductive number (F : Type) : Type :=
| PyInt (n : Z)
| PyFloat (v : F).
Arguments PyInt {F} n.
Arguments PyFloat {F} v.

(** The axis names the methods compare against: ["x"], ["y"], ["z"]. *)
Inductive axis : Type := AxisX | AxisY | AxisZ.

(** The state of a [Grid] object.  [C] is the type of the component objects
    (sources, boundaries, detectors, objects) the four lists hold.  The last
    two attributes are not assigned by the constructor: [animate] is read by
    [step] and [run], [total_time] is assigned by [run]; [None] stands for an
    attribute the object does not have. *)
Record Grid (F C : Type) : Type := mkGrid {
  grid_spacing : F;
  grid_spacing_x : F;
  grid_spacing_y : F;
  grid_spacing_z : F;
  Nx : Z;
  Ny : Z;
  Nz : Z;
  D : Z;
  courant_number : F;
  time_step : F;
  E : tensor F;
  H : tensor F;
  inverse_permittivity : tensor F;
  inverse_permeability : tensor F;
  priority : tensor3 F;
  time_steps_passed : Z;
  sources : list C;
  boundaries : list C;
  detectors : list C;
  objects : list C;
  animate : option bool;
  total_time : option Z
}.

Section Conversions.
Context {F C : Type} {AF : Arith F}.

(** The body shared by the three branches of [_handle_distance]:
    [int(float(distance) / spacing + 0.5)] unless [distance] is an int. *)
Definition gridpoints (spacing : F) (distance : number F) : result Z :=
  match distance with
  | PyInt n => Ok n
  | PyFloat v =>
      q <- py_truediv v spacing ;;
      py_int (add q lit_0_5)
  end.

Definition _handle_distance (self : Grid F C) (distance : number F)
    (ax : axis) : result Z :=
  match ax with
  | AxisX => gridpoints (grid_spacing_x self) distance
  | AxisY => gridpoints (grid_spacing_y self) distance
  | AxisZ => gridpoints (grid_spacing_z self) distance
  end.

(** [time_step] is a numpy float: dividing by it never raises. *)
Definition _handle_time (self : Grid F C) (time : number F) : result Z :=
  match time with
  | PyInt n => Ok n
  | PyFloat v => py_int (add (div v (time_step self)) lit_0_5)
  end.

(** [_handle_tuple] runs inside the constructor, when only the three
    spacings of [self] are assigned; it takes them directly. *)
Definition _handle_tuple (sx sy sz : F) (shape : list (number F))
  : result (Z * Z * Z) :=
  match shape with
  | [a; b; c] =>
      nx <- gridpoints sx a ;;
      ny <- gridpoints sy b ;;
      nz <- gridpoints sz c ;;
      ret (nx, ny, nz)
  | _ => Raise ValueError
  end.
End Conversions.

(** ** The constructor *)

(** The background permittivity or permeability: a scalar, a
    [(Nx, Ny, Nz)] array (broadcast over the last axis) or a full tensor. *)
Inductive material (F : Type) : Type :=
| Scalar (v : F)
| Array3 (a : tensor3 F)
| Array4 (a : tensor F).
Arguments Scalar {F} v.
Arguments Array3 {F} a.
Arguments Array4 {F} a.

Section Construction.
Context {F C : Type} {AF : Arith F}.

(** What the constructor takes from outside the class: the constant
    [const.c], numpy's [sqrt], and the float power [x ** (-0.5)] of the
    C library for a positive [x]. *)
Variable c : F.
Variable sqrt : F -> F.
Variable pow_neg_half : F -> F.

(** The number of axes longer than one cell. *)
Definition dimension (nx ny nz : Z) : Z :=
  int_of_bool (1 <? nx) + int_of_bool (1 <? ny) + int_of_bool (1 <? nz).

(** [float(D) ** (-0.5)]; Python refuses [0.0] to a negative power. *)
Definition max_courant_number (d : Z) : result F :=
  if d =? 0 then Raise ZeroDivisionError else Ok (pow_neg_half (of_Z d)).

(** [int(n > 1) / spacing ** 2], with [spacing] the constructor's own
    argument (not the attribute it was defaulted into). *)
Definition axis_term (n : Z) (spacing : option F) : result F :=
  g2 <- py_pow2 spacing ;;
  py_truediv (of_Z (int_of_bool (1 <? n))) g2.

(** [bd.ones(shape) / bd.array(m)] *)
Definition inverse_of (m : material F) : tensor F :=
  fun i j k p =>
    div (ones i j k p)
        match m with
        | Scalar v => v
        | Array3 a => a i j k
        | Array4 a => a i j k p
        end.

Definition __init__ (shape : list (number F)) (grid_spacing0 : F)
    (gsx gsy gsz : option F) (permittivity permeability : material F)
    (courant : option F) : result (Grid F C) :=
  let self_grid_spacing := grid_spacing0 in
  let self_gsx := match gsx with None => self_grid_spacing | Some v => v end in
  let self_gsy := match gsy with None => self_grid_spacing | Some v => v end in
  let self_gsz := match gsz with None => self_grid_spacing | Some v => v end in
  n <- _handle_tuple self_gsx self_gsy self_gsz shape ;;
  let '(nx, ny, nz) := n in
  let d := dimension nx ny nz in
  maxc <- max_courant_number d ;;
  cn <- match courant with
        | None => Ok (mul lit_0_99 maxc)
        | Some v => if ltb maxc v then Raise ValueError else Ok v
        end ;;
  tx <- axis_term nx gsx ;;
  ty <- axis_term ny gsy ;;
  tz <- axis_term nz gsz ;;
  let dt := div lit_0_99 (mul c (sqrt (add (add tx ty) tz))) in
  (* bd.zeros refuses a negative dimension *)
  _ <- (if (nx <? 0) || (ny <? 0) || (nz <? 0)
        then Raise ValueError else Ok tt) ;;
  ret {| grid_spacing := self_grid_spacing;
         grid_spacing_x := self_gsx;
         grid_spacing_y := self_gsy;
         grid_spacing_z := self_gsz;
         Nx := nx; Ny := ny; Nz := nz;
         D := d;
         courant_number := cn;
         time_step := dt;
         E := zeros;
         H := zeros;
         inverse_permittivity := inverse_of permittivity;
         inverse_permeability := inverse_of permeability;
         priority := fun _ _ _ => lit_0_0;
         time_steps_passed := 0;
         sources := [];
         boundaries := [];
         detectors := [];
         objects := [];
         animate := None;
         total_time := None |}.
End Construction.

(** ** The grid and what surrounds it *)

(** [reset]: the two fields are multiplied by [0.0] in place and the counter
    by [0]. *)
Definition reset {F C : Type} {AF : Arith F} (self : Grid F C) : Grid F C :=
  {| grid_spacing := grid_spacing self;
     grid_spacing_x := grid_spacing_x self;
     grid_spacing_y := grid_spacing_y self;
     grid_spacing_z := grid_spacing_z self;
     Nx := Nx self; Ny := Ny self; Nz := Nz self;
     D := D self;
     courant_number := courant_number self;
     time_step := time_step self;
     E := fun i j k p => mul (E self i j k p) lit_0_0;
     H := fun i j k p => mul (H self i j k p) lit_0_0;
     inverse_permittivity := inverse_permittivity self;
     inverse_permeability := inverse_permeability self;
     priority := priority self;
     time_steps_passed := time_steps_passed self * 0;
     sources := sources self;
     boundaries := boundaries self;
     detectors := detectors self;
     objects := objects self;
     animate := animate self;
     total_time := total_time self |}.

(** Attribute assignments used by the methods below. *)
Definition set_E {F C : Type} (v : tensor F) (g : Grid F C) : Grid F C :=
  mkGrid (grid_spacing g) (grid_spacing_x g) (grid_spacing_y g)
    (grid_spacing_z g) (Nx g) (Ny g) (Nz g) (D g) (courant_number g)
    (time_step g) v (H g) (inverse_permittivity g) (inverse_permeability g)
    (priority g) (time_steps_passed g) (sources g) (boundaries g)
    (detectors g) (objects g) (animate g) (total_time g).

Definition set_H {F C : Type} (v : tensor F) (g : Grid F C) : Grid F C :=
  mkGrid (grid_spacing g) (grid_spacing_x g) (grid_spacing_y g)
    (grid_spacing_z g) (Nx g) (Ny g) (Nz g) (D g) (courant_number g)
    (time_step g) (E g) v (inverse_permittivity g) (inverse_permeability g)
    (priority g) (time_steps_passed g) (sources g) (boundaries g)
    (detectors g) (objects g) (animate g) (total_time g).

Definition set_time_steps_passed {F C : Type} (n : Z) (g : Grid F C)
  : Grid F C :=
  mkGrid (grid_spacing g) (grid_spacing_x g) (grid_spacing_y g)
    (grid_spacing_z g) (Nx g) (Ny g) (Nz g) (D g) (courant_number g)
    (time_step g) (E g) (H g) (inverse_permittivity g)
    (inverse_permeability g) (priority g) n (sources g) (boundaries g)
    (detectors g) (objects g) (animate g) (total_time g).

Definition set_animate {F C : Type} (a : option bool) (g : Grid F C)
  : Grid F C :=
  mkGrid (grid_spacing g) (grid_spacing_x g) (grid_spacing_y g)
    (grid_spacing_z g) (Nx g) (Ny g) (Nz g) (D g) (courant_number g)
    (time_step g) (E g) (H g) (inverse_permittivity g)
    (inverse_permeability g) (priority g) (time_steps_passed g) (sources g)
    (boundaries g) (detectors g) (objects g) a (total_time g).

Definition set_total_time {F C : Type} (n : option Z) (g : Grid F C)
  : Grid F C :=
  mkGrid (grid_spacing g) (grid_spacing_x g) (grid_spacing_y g)
    (grid_spacing_z g) (Nx g) (Ny g) (Nz g) (D g) (courant_number g)
    (time_step g) (E g) (H g) (inverse_permittivity g)
    (inverse_permeability g) (priority g) (time_steps_passed g) (sources g)
    (boundaries g) (detectors g) (objects g) (animate g) n.

(** Keys of the region-assignment operator.  One axis key is a number, a
    sequence of numbers (anything with a length) or a slice whose three
    parts are numbers or [None]. *)
Inductive key (F : Type) : Type :=
| KNumber (v : number F)
| KSeq (l : list (number F))
| KSlice (start stop step_ : option (number F)).
Arguments KNumber {F} v.
Arguments KSeq {F} l.
Arguments KSlice {F} start stop step_.

(** The key of [grid[...] = attr]: a tuple of axis keys, or anything else. *)
Inductive item_key (F : Type) : Type :=
| NotTuple (k : key F)
| Tuple (ks : list (key F)).
Arguments NotTuple {F} k.
Arguments Tuple {F} ks.

(** What a component receives on registration, per axis: a list of indices
    or a slice. *)
Inductive region (F : Type) : Type :=
| Indices (l : list Z)
| Slice (start stop step_ : option (number F)).
Arguments Indices {F} l.
Arguments Slice {F} start stop step_.

(** The calls a method makes, in the order it makes them. *)
Inductive call (F C : Type) : Type :=
| Call_update_phi_E (b : C) (dx dy dz : F)
| Set_E
| Call_update_E (o : C)
| Call_detect_E (d : C)
| Call_update_phi_H (b : C) (dx dy dz : F)
| Set_H
| Call_update_H (o : C)
| Call_detect_H (d : C)
| Call_save_frame
| Inc_time_steps_passed
| Call_frames_folder
| Call_init_h5file (d : C)
| Call_register_grid (attr : C) (rx ry rz : region F).
Arguments Set_E {F C}.
Arguments Set_H {F C}.
Arguments Call_save_frame {F C}.
Arguments Inc_time_steps_passed {F C}.
Arguments Call_frames_folder {F C}.
Arguments Call_update_E {F C} o.
Arguments Call_detect_E {F C} d.
Arguments Call_update_H {F C} o.
Arguments Call_detect_H {F C} d.
Arguments Call_init_h5file {F C} d.

(** The grid, the state it does not own (the internals of the components,
    files, figures: [X]) and the calls made so far. *)
Record world (F C X : Type) : Type := mkWorld {
  grid : Grid F C;
  outside : X;
  calls : list (call F C)
}.

(** A method of a component: it receives the grid it is registered on and
    may change it and the component's own state. *)
Definition hook (F C X : Type) : Type := Grid F C -> X -> Grid F C * X.

(** What the grid calls and does not define: the constant [const.c], the
    methods of the components (looked up on the object, so a boundary's and
    a source's [update_E] are one method name; they are taken to return
    normally), and the two frame-capture collaborators, which may fail. *)
Class Collaborators (F C X : Type) : Type := {
  const_c : F;
  on_update_phi_E : C -> F -> F -> F -> hook F C X;
  on_update_E : C -> hook F C X;
  on_detect_E : C -> hook F C X;
  on_update_phi_H : C -> F -> F -> F -> hook F C X;
  on_update_H : C -> hook F C X;
  on_detect_H : C -> hook F C X;
  on_init_h5file : C -> hook F C X;
  on_register_grid : C -> region F -> region F -> region F -> hook F C X;
  on_save_frame : Grid F C -> X -> result (Grid F C * X);
  on_frames_folder : Grid F C -> X -> result (Grid F C * X)
}.

(** Methods that change the grid: a state monad in which an exception keeps
    the state reached when it was raised. *)
Definition M (F C X A : Type) : Type := world F C X -> result A * world F C X.

#[export] Instance Monad_M {F C X : Type} : Monad (M F C X) := {
  ret := fun A a w => (Ok a, w);
  bind := fun A B m k w =>
    match m w with
    | (Ok a, w') => k a w'
    | (Raise e, w') => (Raise e, w')
    end
}.

Section Methods.
Context {F C X : Type} {AF : Arith F} {CO : Collaborators F C X}.

Definition raise {A} (e : exc) : M F C X A := fun w => (Raise e, w).
Definition lift {A} (r : result A) : M F C X A := fun w => (r, w).
Definition self : M F C X (Grid F C) := fun w => (Ok (grid w), w).

(** A call of a component's method, recorded. *)
Definition invoke (ev : call F C) (h : hook F C X) : M F C X unit :=
  fun w =>
    let (g, x) := h (grid w) (outside w) in
    (Ok tt, mkWorld g x (calls w ++ [ev])).

(** A call of a collaborator that may fail; a failure leaves the state. *)
Definition invoke_fallible (ev : call F C)
    (h : Grid F C -> X -> result (Grid F C * X)) : M F C X unit :=
  fun w =>
    match h (grid w) (outside w) with
    | Ok (g, x) => (Ok tt, mkWorld g x (calls w ++ [ev]))
    | Raise e => (Raise e, mkWorld (grid w) (outside w) (calls w ++ [ev]))
    end.

(** An assignment to an attribute of the grid, recorded. *)
Definition assign (ev : call F C) (f : Grid F C -> Grid F C)
  : M F C X unit :=
  fun w => (Ok tt, mkWorld (f (grid w)) (outside w) (calls w ++ [ev])).

Definition assign_silent (f : Grid F C -> Grid F C) : M F C X unit :=
  fun w => (Ok tt, mkWorld (f (grid w)) (outside w) (calls w)).

(** [for o in l: body(o)], over the collection as it is when the loop
    starts. *)
Fixpoint for_each (l : list C) (body : C -> M F C X unit)
  : M F C X unit :=
  match l with
  | [] => ret tt
  | o :: l' => body o ;; for_each l' body
  end.

(** [for _ in range(n): body] *)
Fixpoint for_range (n : nat) (body : M F C X unit) : M F C X unit :=
  match n with
  | O => ret tt
  | S n' => body ;; for_range n' body
  end.

(** [self.E += const.c * self.time_step * self.inverse_permittivity * curl] *)
Definition E_plus_curl (g : Grid F C) : tensor F :=
  let curl := curl_H_with_nonuniform_grid (Nx g) (Ny g) (Nz g)
                (grid_spacing_x g) (grid_spacing_y g) (grid_spacing_z g)
                (H g) in
  fun i j k p =>
    add (E g i j k p)
        (mul (mul (mul const_c (time_step g)) (inverse_permittivity g i j k p))
             (curl i j k p)).

(** [self.H -= const.c * self.time_step * self.inverse_permeability * curl] *)
Definition H_minus_curl (g : Grid F C) : tensor F :=
  let curl := curl_E_with_nonuniform_grid (Nx g) (Ny g) (Nz g)
                (grid_spacing_x g) (grid_spacing_y g) (grid_spacing_z g)
                (E g) in
  fun i j k p =>
    sub (H g i j k p)
        (mul (mul (mul const_c (time_step g)) (inverse_permeability g i j k p))
             (curl i j k p)).

Definition update_E : M F C X unit :=
  g <- self ;;
  for_each (boundaries g) (fun boundary =>
    g <- self ;;
    let dx := grid_spacing_x g in
    let dy := grid_spacing_y g in
    let dz := grid_spacing_z g in
    invoke (Call_update_phi_E boundary dx dy dz)
           (on_update_phi_E boundary dx dy dz)) ;;
  assign Set_E (fun g => set_E (E_plus_curl g) g) ;;
  g <- self ;;
  for_each (boundaries g) (fun boundary =>
    invoke (Call_update_E boundary) (on_update_E boundary)) ;;
  g <- self ;;
  for_each (sources g) (fun src =>
    invoke (Call_update_E src) (on_update_E src)) ;;
  g <- self ;;
  for_each (detectors g) (fun det =>
    invoke (Call_detect_E det) (on_detect_E det)).

Definition update_H : M F C X unit :=
  g <- self ;;
  for_each (boundaries g) (fun boundary =>
    g <- self ;;
    let dx := grid_spacing_x g in
    let dy := grid_spacing_y g in
    let dz := grid_spacing_z g in
    invoke (Call_update_phi_H boundary dx dy dz)
           (on_update_phi_H boundary dx dy dz)) ;;
  assign Set_H (fun g => set_H (H_minus_curl g) g) ;;
  g <- self ;;
  for_each (boundaries g) (fun boundary =>
    invoke (Call_update_H boundary) (on_update_H boundary)) ;;
  g <- self ;;
  for_each (sources g) (fun src =>
    invoke (Call_update_H src) (on_update_H src)) ;;
  g <- self ;;
  for_each (detectors g) (fun det =>
    invoke (Call_detect_H det) (on_detect_H det)).

(** [self.animate]: an attribute error when the attribute was never set. *)
Definition get_animate : M F C X bool :=
  g <- self ;;
  match animate g with
  | None => raise AttributeError
  | Some a => ret a
  end.

Definition step (interval : Z) : M F C X unit :=
  update_E ;;
  update_H ;;
  a <- get_animate ;;
  (if a then
     g <- self ;;
     if interval =? 0 then raise ZeroDivisionError
     else if time_steps_passed g mod interval =? 0
          then invoke_fallible Call_save_frame on_save_frame
          else ret tt
   else ret tt) ;;
  assign Inc_time_steps_passed
    (fun g => set_time_steps_passed (time_steps_passed g + 1) g).

(** [run]: [total] is [None] (the default), an int or a float.  The
    progress bar only wraps the range and is not modelled. *)
Definition run (total : option (number F)) (interval : Z) : M F C X unit :=
  g <- self ;;
  n <- lift match total with
            | None => Raise TypeError
            | Some (PyInt n) => Ok n
            | Some (PyFloat v) => py_int (div v (time_step g))
            end ;;
  assign_silent (set_total_time (Some n)) ;;
  a <- get_animate ;;
  (if a then invoke_fallible Call_frames_folder on_frames_folder
   else ret tt) ;;
  g <- self ;;
  for_each (detectors g) (fun det =>
    invoke (Call_init_h5file det) (on_init_h5file det)) ;;
  for_range (Z.to_nat n) (step interval).

(** *** Region assignment *)

Definition handle_part (g : Grid F C) (ax : axis) (p : option (number F))
  : result (option (number F)) :=
  match p with
  | Some (PyFloat v) =>
      n <- _handle_distance g (PyFloat v) ax ;; ret (Some (PyInt n))
  | _ => ret p
  end.

Definition _handle_slice (g : Grid F C) (start stop step_ : option (number F))
    (ax : axis) : result (region F) :=
  a <- handle_part g ax start ;;
  b <- handle_part g ax stop ;;
  s <- handle_part g ax step_ ;;
  ret (Slice a b s).

Fixpoint handle_each (g : Grid F C) (ax : axis) (l : list (number F))
  : result (list Z) :=
  match l with
  | [] => ret []
  | k :: l' =>
      n <- _handle_distance g k ax ;;
      ns <- handle_each g ax l' ;;
      ret (n :: ns)
  end.

Definition _handle_single_key (g : Grid F C) (k : key F) (ax : axis)
  : result (region F) :=
  match k with
  | KSeq l => ns <- handle_each g ax l ;; ret (Indices ns)
  | KSlice a b s => _handle_slice g a b s ax
  | KNumber v => n <- _handle_distance g v ax ;; ret (Indices [n])
  end.

Definition slice_None : key F := KSlice None None None.

Definition __setitem__ (k : item_key F) (attr : C) : M F C X unit :=
  xyz <- match k with
         | NotTuple k0 => ret (k0, slice_None, slice_None)
         | Tuple [k0] => ret (k0, slice_None, slice_None)
         | Tuple [k0; k1] => ret (k0, k1, slice_None)
         | Tuple [k0; k1; k2] => ret (k0, k1, k2)
         | Tuple _ => raise KeyError
         end ;;
  let '(kx, ky, kz) := xyz in
  g <- self ;;
  rx <- lift (_handle_single_key g kx AxisX) ;;
  ry <- lift (_handle_single_key g ky AxisY) ;;
  rz <- lift (_handle_single_key g kz AxisZ) ;;
  invoke (Call_register_grid attr rx ry rz) (on_register_grid attr rx ry rz).
End Methods.

(** * Vocabulary of the properties *)

(** ** Differences and guards of the curls *)

Section CurlVocabulary.
Context {F : Type} {AF : Arith F}.
Variables Nx Ny Nz : Z.

(** A difference term accumulated only where its neighbour exists. *)
Definition where_ (b : bool) (op : F -> F -> F) (acc d : F) : F :=
  if b then op acc d else acc.

(** The forward difference of component [p] along each axis. *)
Definition dx_fwd (t : tensor F) (p i j k : Z) : F :=
  sub (t (i + 1) j k p) (t i j k p).

Definition dy_fwd (t : tensor F) (p i j k : Z) : F :=
  sub (t i (j + 1) k p) (t i j k p).

Definition dz_fwd (t : tensor F) (p i j k : Z) : F :=
  sub (t i j (k + 1) p) (t i j k p).

(** The backward difference of component [p] along each axis. *)
Definition dx_bwd (t : tensor F) (p i j k : Z) : F :=
  sub (t (i - 1 + 1) j k p) (t (i - 1) j k p).

Definition dy_bwd (t : tensor F) (p i j k : Z) : F :=
  sub (t i (j - 1 + 1) k p) (t i (j - 1) k p).

Definition dz_bwd (t : tensor F) (p i j k : Z) : F :=
  sub (t i j (k - 1 + 1) p) (t i j (k - 1) p).

Definition inside (i j k : Z) : Prop :=
  (0 <= i < Nx) /\ (0 <= j < Ny) /\ (0 <= k < Nz).

(** The two difference terms of an entry of a curl, each passed through
    [scale] before it is accumulated on the initial zero: [d1] is added
    where [b1] holds, [d2] is subtracted where [b2] holds. *)
Definition two_terms (scale : F -> F) (b1 b2 : bool) (d1 d2 : F) : F :=
  where_ b2 sub (where_ b1 add lit_0_0 (scale d1)) (scale d2).

(** The entries of a curl of E (forward differences, present below the
    last layer) and of a curl of H (backward differences, present above
    layer 0), with every difference passed through [scale]. *)
Definition scaled_curl_E (scale : F -> F) (t : tensor F) (i j k p : Z) : F :=
  match p with
  | 0 => two_terms scale (j <? Ny - 1) (k <? Nz - 1)
           (dy_fwd t 2 i j k) (dz_fwd t 1 i j k)
  | 1 => two_terms scale (k <? Nz - 1) (i <? Nx - 1)
           (dz_fwd t 0 i j k) (dx_fwd t 2 i j k)
  | _ => two_terms scale (i <? Nx - 1) (j <? Ny - 1)
           (dx_fwd t 1 i j k) (dy_fwd t 0 i j k)
  end.

Definition scaled_curl_H (scale : F -> F) (t : tensor F) (i j k p : Z) : F :=
  match p with
  | 0 => two_terms scale (1 <=? j) (1 <=? k)
           (dy_bwd t 2 i j k) (dz_bwd t 1 i j k)
  | 1 => two_terms scale (1 <=? k) (1 <=? i)
           (dz_bwd t 0 i j k) (dx_bwd t 2 i j k)
  | _ => two_terms scale (1 <=? i) (1 <=? j)
           (dx_bwd t 1 i j k) (dy_bwd t 0 i j k)
  end.
End CurlVocabulary.

(** ** Machine numbers *)

(** [x == 0.0]: a zero of either sign. *)
Definition is_zero {F : Type} {AF : Arith F} (x : F) : Prop :=
  eqb x lit_0_0 = true.

(** Neither infinite nor NaN. *)
Definition is_finite {F : Type} {AF : Arith F} (x : F) : Prop :=
  exists q, value x = Finite q.

(** A number one can divide a zero by and get a zero: not zero, not NaN. *)
Definition divides {F : Type} {AF : Arith F} (s : F) : Prop :=
  eqb s lit_0_0 = false /\ value s <> NotANumber.

(** A binary64 field is flat when the difference of any two of its entries
    of the same component inside the array is a zero. *)
Definition flat (Nx Ny Nz : Z) (t : tensor float) : Prop :=
  forall i j k i' j' k' p,
    inside Nx Ny Nz i j k -> inside Nx Ny Nz i' j' k' -> 0 <= p < 3 ->
    is_zero (sub (t i' j' k' p) (t i j k p)).

(** ** Conversions *)

(** Rounding to the nearest integer, halves upward, of the number a machine
    number stands for: the floor of that number plus one half, the sum taken
    exactly. *)
Definition round_half_up {F : Type} {AF : Arith F} (x : F) : option Z :=
  match value x with
  | Finite q => Some (Qfloor (q + (1 # 2)))
  | _ => None
  end.

Definition spacing_of {F C : Type} (g : Grid F C) (ax : axis) : F :=
  match ax with
  | AxisX => grid_spacing_x g
  | AxisY => grid_spacing_y g
  | AxisZ => grid_spacing_z g
  end.

Definition or_default {F : Type} (d : F) (o : option F) : F :=
  match o with None => d | Some v => v end.

(** ** Calls and their effect *)

Section StepVocabulary.
Context {F C X : Type} {AF : Arith F} {CO : Collaborators F C X}.

(** The effect of one recorded call on the world.  The two collaborators
    that may fail leave the grid as it was when they do. *)
Definition perform (ev : call F C) (w : world F C X) : world F C X :=
  let log := calls w ++ [ev] in
  let via (h : hook F C X) :=
    let (g, x) := h (grid w) (outside w) in mkWorld g x log in
  let try_ (h : Grid F C -> X -> result (Grid F C * X)) :=
    match h (grid w) (outside w) with
    | Ok (g, x) => mkWorld g x log
    | Raise _ => mkWorld (grid w) (outside w) log
    end in
  match ev with
  | Call_update_phi_E b dx dy dz => via (on_update_phi_E b dx dy dz)
  | Set_E => mkWorld (set_E (E_plus_curl (grid w)) (grid w)) (outside w) log
  | Call_update_E o => via (on_update_E o)
  | Call_detect_E d => via (on_detect_E d)
  | Call_update_phi_H b dx dy dz => via (on_update_phi_H b dx dy dz)
  | Set_H => mkWorld (set_H (H_minus_curl (grid w)) (grid w)) (outside w) log
  | Call_update_H o => via (on_update_H o)
  | Call_detect_H d => via (on_detect_H d)
  | Call_save_frame => try_ on_save_frame
  | Inc_time_steps_passed =>
      mkWorld (set_time_steps_passed (time_steps_passed (grid w) + 1) (grid w))
              (outside w) log
  | Call_frames_folder => try_ on_frames_folder
  | Call_init_h5file d => via (on_init_h5file d)
  | Call_register_grid a rx ry rz => via (on_register_grid a rx ry rz)
  end.

Definition perform_all (l : list (call F C)) (w : world F C X)
  : world F C X :=
  fold_left (fun w ev => perform ev w) l w.

(** The sequence of one step, read off a grid: the E phase, the H phase,
    the counter. *)
Definition E_phase (g : Grid F C) : list (call F C) :=
  map (fun b => Call_update_phi_E b (grid_spacing_x g) (grid_spacing_y g)
                  (grid_spacing_z g)) (boundaries g)
  ++ [Set_E]
  ++ map Call_update_E (boundaries g)
  ++ map Call_update_E (sources g)
  ++ map Call_detect_E (detectors g).

Definition H_phase (g : Grid F C) : list (call F C) :=
  map (fun b => Call_update_phi_H b (grid_spacing_x g) (grid_spacing_y g)
                  (grid_spacing_z g)) (boundaries g)
  ++ [Set_H]
  ++ map Call_update_H (boundaries g)
  ++ map Call_update_H (sources g)
  ++ map Call_detect_H (detectors g).

Definition step_calls (g : Grid F C) : list (call F C) :=
  E_phase g ++ H_phase g ++ [Inc_time_steps_passed].

(** What the sequence is read from. *)
Definition setup (g : Grid F C) :=
  (boundaries g, sources g, detectors g,
   grid_spacing_x g, grid_spacing_y g, grid_spacing_z g, animate g).

(** A method of a component that leaves the collections, the spacings,
    the animate flag and the step counter of the grid alone. *)
Definition keeps (h : hook F C X) : Prop :=
  forall g x,
    setup (fst (h g x)) = setup g /\
    time_steps_passed (fst (h g x)) = time_steps_passed g.

Definition polite : Prop :=
  (forall b dx dy dz, keeps (on_update_phi_E b dx dy dz)) /\
  (forall o, keeps (on_update_E o)) /\
  (forall d, keeps (on_detect_E d)) /\
  (forall b dx dy dz, keeps (on_update_phi_H b dx dy dz)) /\
  (forall o, keeps (on_update_H o)) /\
  (forall d, keeps (on_detect_H d)) /\
  (forall d, keeps (on_init_h5file d)).

(** The calls of the two phases and of the detector files. *)
Definition quiet (ev : call F C) : bool :=
  match ev with
  | Call_save_frame | Inc_time_steps_passed | Call_frames_folder
  | Call_register_grid _ _ _ _ => false
  | _ => true
  end.

(** [m], started in [w], returns normally having made the calls [l]. *)
Definition does (m : M F C X unit) (l : list (call F C)) (w : world F C X)
  : Prop :=
  m w = (Ok tt, perform_all l w).

(** The world is as the sequence read from [g0] expects it. *)
Definition as_at (g0 : Grid F C) (w : world F C X) : Prop :=
  setup (grid w) = setup g0 /\
  time_steps_passed (grid w) = time_steps_passed g0.

(** No frame is due at this step: the flag is set and false, or the
    counter is not a multiple of the interval. *)
Definition no_frame_due (interval : Z) (g : Grid F C) : Prop :=
  animate g = Some false \/
  (animate g = Some true /\ interval <> 0 /\
   time_steps_passed g mod interval <> 0).

(** The calls of [run] for [n] steps, read off a grid, and the world they
    leave, [total_time] assigned first. *)
Definition run_calls (g : Grid F C) (n : Z) : list (call F C) :=
  map Call_init_h5file (detectors g)
  ++ concat (repeat (step_calls g) (Z.to_nat n)).

Definition ran (n : Z) (w : world F C X) : world F C X :=
  perform_all (run_calls (grid w) n)
    (mkWorld (set_total_time (Some n) (grid w)) (outside w) (calls w)).

(** Is a frame saved by the step taken when the counter is [t]? *)
Definition frame_due (interval : Z) (g : Grid F C) (t : Z) : bool :=
  match animate g with
  | Some true => t mod interval =? 0
  | _ => false
  end.

(** The sequence of the step taken when the counter is [t], the frame
    included when it is due; the sequences of [k] steps in a row. *)
Definition step_calls_at (interval : Z) (g : Grid F C) (t : Z)
  : list (call F C) :=
  E_phase g ++ H_phase g
  ++ (if frame_due interval g t then [Call_save_frame] else [])
  ++ [Inc_time_steps_passed].

Fixpoint steps_calls (interval : Z) (g : Grid F C) (t : Z) (k : nat)
  : list (call F C) :=
  match k with
  | O => []
  | S k' => step_calls_at interval g t ++ steps_calls interval g (t + 1) k'
  end.

(** The calls of [run] for [n] steps whatever the animate flag is set to:
    the frames folder first when it is true; and the world they leave. *)
Definition run_calls_at (interval : Z) (g : Grid F C) (n : Z)
  : list (call F C) :=
  match animate g with Some true => [Call_frames_folder] | _ => [] end
  ++ map Call_init_h5file (detectors g)
  ++ steps_calls interval g (time_steps_passed g) (Z.to_nat n).

Definition ran_at (interval n : Z) (w : world F C X) : world F C X :=
  perform_all (run_calls_at interval (grid w) n)
    (mkWorld (set_total_time (Some n) (grid w)) (outside w) (calls w)).

(** A frame-capture collaborator that returns normally and leaves the
    collections, the spacings, the animate flag and the counter alone. *)
Definition harmless (h : Grid F C -> X -> result (Grid F C * X)) : Prop :=
  forall g x, exists g' x',
    h g x = Ok (g', x') /\
    setup g' = setup g /\ time_steps_passed g' = time_steps_passed g.

Definition frames_safe : Prop :=
  harmless on_frames_folder /\ harmless on_save_frame.
End StepVocabulary.

(** * Concrete settings *)

(** The binary64 setting of the concrete runs: the speed of light of
    [constants.py], the primitive square root, and [1 / sqrt x] standing
    for the C library's [pow(x, -0.5)] (the two agree at [x = 1.0]; elsewhere
    they may differ in the last place). *)
Definition c_vacuum : float := 299792458%float.

Definition pow_neg_half_b64 (x : float) : float :=
  PrimFloat.div 1%float (PrimFloat.sqrt x).

Definition init_b64 (C : Type) :=
  @__init__ float C binary64 c_vacuum PrimFloat.sqrt pow_neg_half_b64.

(** The default spacing, [155e-9]. *)
Definition um155 : float := div (float_of_Z 155) (float_of_Z 1000000000).

(** A 2 x 2 x 2 field of binary64 numbers with distinct entries. *)
Definition ramp : tensor float :=
  fun i j k p => float_of_Z (1 + i + 2 * j + 4 * k + 8 * p).

(** A grid of 2 x 1 x 1 cells in binary64 with the default spacing on the
    three axes, as the constructor leaves it. *)
Definition small_grid (C : Type) : Grid float C :=
  {| grid_spacing := um155;
     grid_spacing_x := um155;
     grid_spacing_y := um155;
     grid_spacing_z := um155;
     Nx := 2; Ny := 1; Nz := 1;
     D := 1;
     courant_number := lit_0_99;
     time_step := div lit_0_99
                      (mul c_vacuum
                           (PrimFloat.sqrt (div 1%float (mul um155 um155))));
     E := zeros;
     H := zeros;
     inverse_permittivity := inverse_of (Scalar 1%float);
     inverse_permeability := inverse_of (Scalar 1%float);
     priority := fun _ _ _ => lit_0_0;
     time_steps_passed := 0;
     sources := [];
     boundaries := [];
     detectors := [];
     objects := [];
     animate := None;
     total_time := None |}.

(** The same grid with unit spacings. *)
Definition unit_grid (C : Type) : Grid float C :=
  {| grid_spacing := 1%float;
     grid_spacing_x := 1%float;
     grid_spacing_y := 1%float;
     grid_spacing_z := 1%float;
     Nx := 2; Ny := 1; Nz := 1;
     D := 1;
     courant_number := lit_0_99;
     time_step := div lit_0_99 (mul c_vacuum (PrimFloat.sqrt 1%float));
     E := zeros;
     H := zeros;
     inverse_permittivity := inverse_of (Scalar 1%float);
     inverse_permeability := inverse_of (Scalar 1%float);
     priority := fun _ _ _ => lit_0_0;
     time_steps_passed := 0;
     sources := [];
     boundaries := [];
     detectors := [];
     objects := [];
     animate := None;
     total_time := None |}.

(** A grid one of whose entries has overflowed: [E[0, 0, 0, 2]] is
    [+infinity]. *)
Definition overflowed_grid : Grid float nat :=
  set_E (fun i j k p =>
           if (i =? 0) && (j =? 0) && (k =? 0) && (p =? 2)
           then infinity else 0%float)
        (small_grid nat).

(** A boundary, a source and a detector for the concrete runs.  The lamp
    adds [1.0] to [E[0, 0, 0, 2]]; the probe appends that entry to the
    readings; registration appends the component to its collection. *)
Inductive toy : Type := Wall | Lamp | Probe.

Definition lamp_on (g : Grid float toy) : Grid float toy :=
  set_E (fun i j k p =>
           if (i =? 0) && (j =? 0) && (k =? 0) && (p =? 2)
           then add (E g i j k p) 1%float else E g i j k p) g.

Definition enlist (o : toy) (g : Grid float toy) : Grid float toy :=
  mkGrid (grid_spacing g) (grid_spacing_x g) (grid_spacing_y g)
    (grid_spacing_z g) (Nx g) (Ny g) (Nz g) (D g) (courant_number g)
    (time_step g) (E g) (H g) (inverse_permittivity g)
    (inverse_permeability g) (priority g) (time_steps_passed g)
    (match o with Lamp => sources g ++ [o] | _ => sources g end)
    (match o with Wall => boundaries g ++ [o] | _ => boundaries g end)
    (match o with Probe => detectors g ++ [o] | _ => detectors g end)
    (objects g) (animate g) (total_time g).

#[export] Instance toys : Collaborators float toy (list float) := {
  const_c := c_vacuum;
  on_update_phi_E := fun _ _ _ _ g x => (g, x);
  on_update_E := fun o g x =>
    match o with Lamp => (lamp_on g, x) | _ => (g, x) end;
  on_detect_E := fun d g x =>
    match d with Probe => (g, x ++ [E g 0 0 0 2]) | _ => (g, x) end;
  on_update_phi_H := fun _ _ _ _ g x => (g, x);
  on_update_H := fun _ g x => (g, x);
  on_detect_H := fun d g x =>
    match d with Probe => (g, x ++ [H g 0 0 0 1]) | _ => (g, x) end;
  on_init_h5file := fun _ g x => (g, x);
  on_register_grid := fun o _ _ _ g x => (enlist o g, x);
  on_save_frame := fun g x => Ok (g, x);
  on_frames_folder := fun g x => Ok (g, x)
}.

(** The small grid with the three components registered. *)
Definition stage : Grid float toy :=
  enlist Probe (enlist Lamp (enlist Wall (small_grid toy))).

Definition lit_stage : world float toy (list float) :=
  mkWorld (set_animate (Some false) stage) [] [].

Definition filming_stage : world float toy (list float) :=
  mkWorld (set_animate (Some true) stage) [] [].

(** ** Settings of the further properties *)

(** The stage before the caller has set the animate flag. *)
Definition unlit_stage : world float toy (list float) :=
  mkWorld stage [] [].

(** The toy components where no output folder was chosen: preparing the
    frames folder fails ([None + "/frames"] is a type error). *)
Definition no_folder : Collaborators float toy (list float) :=
  Build_Collaborators c_vacuum
    on_update_phi_E on_update_E on_detect_E
    on_update_phi_H on_update_H on_detect_H
    on_init_h5file on_register_grid
    on_save_frame (fun _ _ => Raise TypeError).

(** The region a key stands for when it holds no float: the ints of a
    number or of a sequence, the parts of a slice as they are. *)
Definition int_of_number {F : Type} (v : number F) : option Z :=
  match v with PyInt n => Some n | PyFloat _ => None end.

Definition no_float {F : Type} (p : option (number F)) : bool :=
  match p with Some (PyFloat _) => false | _ => true end.

Fixpoint ints_of {F : Type} (l : list (number F)) : option (list Z) :=
  match l with
  | [] => Some []
  | v :: l' =>
      match int_of_number v, ints_of l' with
      | Some n, Some ns => Some (n :: ns)
      | _, _ => None
      end
  end.

Definition integral_region {F : Type} (k : key F) : option (region F) :=
  match k with
  | KNumber v =>
      match int_of_number v with
      | Some n => Some (Indices [n])
      | None => None
      end
  | KSeq l =>
      match ints_of l with
      | Some ns => Some (Indices ns)
      | None => None
      end
  | KSlice a b d =>
      if no_float a && no_float b && no_float d
      then Some (Slice a b d) else None
  end.

(** The errors a conversion can raise. *)
Definition conversion_error (e : exc) : Prop :=
  e = ZeroDivisionError \/ e = OverflowError \/ e = ValueError.

(** The unit grid with a zero spacing along x. *)
Definition flat_grid (C : Type) : Grid float C :=
  mkGrid 1%float 0%float 1%float 1%float 2 1 1 1 lit_0_99
    (time_step (unit_grid C)) zeros zeros
    (inverse_of (Scalar 1%float)) (inverse_of (Scalar 1%float))
    (fun _ _ _ => lit_0_0) 0 [] [] [] [] None None.

(** A field with two non-zero entries, [E[0, 1, 0, 2] = a] and
    [E[0, 0, 1, 1] = b]: on a 1 x 2 x 2 grid the entry [(0, 0, 0, 0)] of its
    curl combines the differences [a] and [b]. *)
Definition two_entries (a b : float) : tensor float :=
  fun i j k p =>
    if (i =? 0) && (j =? 1) && (k =? 0) && (p =? 2) then a
    else if (i =? 0) && (j =? 0) && (k =? 1) && (p =? 1) then b
    else 0%float.

(** A field that is the same in every cell: component [p] is [1.0 + p]. *)
Definition uniform_field : tensor float :=
  fun _ _ _ p => float_of_Z (1 + p).

(** The small grid without components, the animate flag set and false. *)
Definition dark_room : world float toy (list float) :=
  mkWorld (set_animate (Some false) (small_grid toy)) [] [].

(** * Properties *)

(** ** The curl operators at the edges of the array *)

Section CurlEdges.
Context {F : Type} {AF : Arith F}.
Variables Nx Ny Nz : Z.

Lemma inside_in_range i j k :
  inside Nx Ny Nz i j k ->
  in_range Nx i = true /\ in_range Ny j = true /\ in_range Nz k = true.
Proof.
  unfold inside, in_range. intros (Hi & Hj & Hk).
  repeat split; apply andb_true_iff; split;
    try (apply Z.leb_le; lia); apply Z.ltb_lt; lia.
Qed.

Lemma ge0_leb i n : 0 <= i < n -> (0 <=? i) = true.
Proof. intros; apply Z.leb_le; lia. Qed.

Lemma lt_ltb i n : 0 <= i < n -> (i <? n) = true.
Proof. intros; apply Z.ltb_lt; lia. Qed.

Ltac curl_entry :=
  intros Hin;
  destruct (inside_in_range Hin) as (Hi & Hj & Hk);
  destruct Hin as (Hi' & Hj' & Hk');
  unfold curl_E, curl_H, curl_E_with_nonuniform_grid,
    curl_H_with_nonuniform_grid, iadd, isub, selected, sl_in, getitem,
    t3_sub, t3_div, sl_at, sl_pos, zeros, where_,
    dx_fwd, dy_fwd, dz_fwd, dx_bwd, dy_bwd, dz_bwd;
  cbn [Z.eqb Pos.eqb andb];
  rewrite ?Hi, ?Hj, ?Hk, ?(ge0_leb Hi'), ?(ge0_leb Hj'), ?(ge0_leb Hk'),
    ?(lt_ltb Hi'), ?(lt_ltb Hj'), ?(lt_ltb Hk');
  cbn [andb];
  rewrite ?andb_true_r;
  reflexivity.

(** Entry by entry, [curl_E] is the zero it starts from plus the forward
    differences whose neighbour lies inside the array. *)
Lemma curl_E_0 (t : tensor F) i j k :
  inside Nx Ny Nz i j k ->
  curl_E Nx Ny Nz t i j k 0 =
    where_ (k <? Nz - 1) sub
      (where_ (j <? Ny - 1) add lit_0_0 (dy_fwd t 2 i j k))
      (dz_fwd t 1 i j k).
Proof. curl_entry. Qed.

Lemma curl_E_1 (t : tensor F) i j k :
  inside Nx Ny Nz i j k ->
  curl_E Nx Ny Nz t i j k 1 =
    where_ (i <? Nx - 1) sub
      (where_ (k <? Nz - 1) add lit_0_0 (dz_fwd t 0 i j k))
      (dx_fwd t 2 i j k).
Proof. curl_entry. Qed.

Lemma curl_E_2 (t : tensor F) i j k :
  inside Nx Ny Nz i j k ->
  curl_E Nx Ny Nz t i j k 2 =
    where_ (j <? Ny - 1) sub
      (where_ (i <? Nx - 1) add lit_0_0 (dx_fwd t 1 i j k))
      (dy_fwd t 0 i j k).
Proof. curl_entry. Qed.

(** [curl_H] likewise, with the backward differences whose predecessor
    lies inside the array. *)
Lemma curl_H_0 (t : tensor F) i j k :
  inside Nx Ny Nz i j k ->
  curl_H Nx Ny Nz t i j k 0 =
    where_ (1 <=? k) sub
      (where_ (1 <=? j) add lit_0_0 (dy_bwd t 2 i j k))
      (dz_bwd t 1 i j k).
Proof. curl_entry. Qed.

Lemma curl_H_1 (t : tensor F) i j k :
  inside Nx Ny Nz i j k ->
  curl_H Nx Ny Nz t i j k 1 =
    where_ (1 <=? i) sub
      (where_ (1 <=? k) add lit_0_0 (dz_bwd t 0 i j k))
      (dx_bwd t 2 i j k).
Proof. curl_entry. Qed.

Lemma curl_H_2 (t : tensor F) i j k :
  inside Nx Ny Nz i j k ->
  curl_H Nx Ny Nz t i j k 2 =
    where_ (1 <=? j) sub
      (where_ (1 <=? i) add lit_0_0 (dx_bwd t 1 i j k))
      (dy_bwd t 0 i j k).
Proof. curl_entry. Qed.

(** C5.  At an index inside the array, a difference term whose neighbour
    would lie beyond the array is not accumulated: on the last layer along
    an axis [curl_E] holds only the terms differenced along the other axes
    (and the initial zero when none is left), and [curl_H] does the same on
    layer 0.  No entry reads a wrapped-around neighbour. *)
Theorem curl_unwritten_edge_layers (t : tensor F) i j k :
  inside Nx Ny Nz i j k ->
  (i = Nx - 1 ->
     curl_E Nx Ny Nz t i j k 1
       = where_ (k <? Nz - 1) add lit_0_0 (dz_fwd t 0 i j k) /\
     curl_E Nx Ny Nz t i j k 2
       = where_ (j <? Ny - 1) sub lit_0_0 (dy_fwd t 0 i j k)) /\
  (j = Ny - 1 ->
     curl_E Nx Ny Nz t i j k 0
       = where_ (k <? Nz - 1) sub lit_0_0 (dz_fwd t 1 i j k) /\
     curl_E Nx Ny Nz t i j k 2
       = where_ (i <? Nx - 1) add lit_0_0 (dx_fwd t 1 i j k)) /\
  (k = Nz - 1 ->
     curl_E Nx Ny Nz t i j k 0
       = where_ (j <? Ny - 1) add lit_0_0 (dy_fwd t 2 i j k) /\
     curl_E Nx Ny Nz t i j k 1
       = where_ (i <? Nx - 1) sub lit_0_0 (dx_fwd t 2 i j k)) /\
  (j = Ny - 1 -> k = Nz - 1 -> curl_E Nx Ny Nz t i j k 0 = lit_0_0) /\
  (k = Nz - 1 -> i = Nx - 1 -> curl_E Nx Ny Nz t i j k 1 = lit_0_0) /\
  (i = Nx - 1 -> j = Ny - 1 -> curl_E Nx Ny Nz t i j k 2 = lit_0_0) /\
  (i = 0 ->
     curl_H Nx Ny Nz t i j k 1
       = where_ (1 <=? k) add lit_0_0 (dz_bwd t 0 i j k) /\
     curl_H Nx Ny Nz t i j k 2
       = where_ (1 <=? j) sub lit_0_0 (dy_bwd t 0 i j k)) /\
  (j = 0 ->
     curl_H Nx Ny Nz t i j k 0
       = where_ (1 <=? k) sub lit_0_0 (dz_bwd t 1 i j k) /\
     curl_H Nx Ny Nz t i j k 2
       = where_ (1 <=? i) add lit_0_0 (dx_bwd t 1 i j k)) /\
  (k = 0 ->
     curl_H Nx Ny Nz t i j k 0
       = where_ (1 <=? j) add lit_0_0 (dy_bwd t 2 i j k) /\
     curl_H Nx Ny Nz t i j k 1
       = where_ (1 <=? i) sub lit_0_0 (dx_bwd t 2 i j k)) /\
  (j = 0 -> k = 0 -> curl_H Nx Ny Nz t i j k 0 = lit_0_0) /\
  (k = 0 -> i = 0 -> curl_H Nx Ny Nz t i j k 1 = lit_0_0) /\
  (i = 0 -> j = 0 -> curl_H Nx Ny Nz t i j k 2 = lit_0_0).
Proof.
  intros Hin.
  assert (last : forall n m, m = n - 1 -> (m <? n - 1) = false)
    by (intros; apply Z.ltb_ge; lia).
  assert (first : forall m, m = 0 -> (1 <=? m) = false)
    by (intros; apply Z.leb_gt; lia).
  rewrite (curl_E_0 t Hin), (curl_E_1 t Hin), (curl_E_2 t Hin),
    (curl_H_0 t Hin), (curl_H_1 t Hin), (curl_H_2 t Hin).
  repeat split; intros;
    rewrite ?(@last Nx i), ?(@last Ny j), ?(@last Nz k),
      ?(first i), ?(first j), ?(first k) by assumption;
    reflexivity.
Qed.
End CurlEdges.

Lemma curl_unwritten_edge_layers_witness :
  inside 2 2 2 1 1 1 /\
  curl_E 2 2 2 ramp 1 1 1 0 = lit_0_0 /\
  curl_H 2 2 2 ramp 0 0 1 2 = lit_0_0.
Proof.
  assert (Hlast : inside 2 2 2 1 1 1) by (unfold inside; lia).
  assert (Hfirst : inside 2 2 2 0 0 1) by (unfold inside; lia).
  split; [exact Hlast | split].
  - apply (curl_unwritten_edge_layers ramp Hlast); reflexivity.
  - apply (curl_unwritten_edge_layers ramp Hfirst); reflexivity.
Defined.

(** ** Equal spacings: the non-uniform curls against the uniform ones *)

(** C6, as stated, fails in binary64, and by more than a rounding error.
    On a 1 x 2 x 2 grid, entry [(0, 0, 0, 0)] of the curl of E combines the
    two differences [a] and [b] of [two_entries a b].  With the default
    spacing and [a = b = 1e302], each quotient by the spacing overflows and
    the non-uniform curl is [inf - inf], NaN, where the uniform curl is
    [0.0] and stays [0.0] when scaled.  With spacing [3.0], [a] one unit in
    the last place above [1.0] and [b = 1.0], the two quotients are rounded
    before they cancel: the non-uniform curl is half as large again as the
    scaled uniform one. *)
Lemma curl_scaling_beyond_tolerance :
  (value (curl_E_with_nonuniform_grid 1 2 2 um155 um155 um155
            (two_entries 1e302 1e302) 0 0 0 0) = NotANumber /\
   mul (curl_E 1 2 2 (two_entries 1e302 1e302) 0 0 0 0) (div lit_1_0 um155)
     = 0%float) /\
  (curl_E_with_nonuniform_grid 1 2 2 3%float 3%float 3%float
     (two_entries 1.0000000000000002 1) 0 0 0 0
     = 1.1102230246251565e-16%float /\
   mul (curl_E 1 2 2 (two_entries 1.0000000000000002 1) 0 0 0 0)
       (div lit_1_0 3%float)
     = 7.4014868308343765e-17%float).
Proof. repeat split; vm_compute; reflexivity. Qed.

Section EqualSpacing.
Context {F : Type} {AF : Arith F}.
Variables Nx Ny Nz : Z.
Variable delta : F.

Ltac scaled_entry Hi Hj Hk Hi' Hj' Hk' :=
  unfold scaled_curl_E, scaled_curl_H, two_terms,
    curl_E, curl_H, curl_E_with_nonuniform_grid,
    curl_H_with_nonuniform_grid, iadd, isub, selected, sl_in, getitem,
    t3_sub, t3_div, sl_at, sl_pos, zeros, where_,
    dx_fwd, dy_fwd, dz_fwd, dx_bwd, dy_bwd, dz_bwd;
  cbn [Z.eqb Pos.eqb andb];
  rewrite ?Hi, ?Hj, ?Hk, ?(ge0_leb Hi'), ?(ge0_leb Hj'), ?(ge0_leb Hk'),
    ?(lt_ltb Hi'), ?(lt_ltb Hj'), ?(lt_ltb Hk');
  cbn [andb];
  rewrite ?andb_true_r;
  reflexivity.

(** C6, amended.  With the three spacings equal to [delta], in any
    arithmetic (binary64 included) and at every entry inside the array: the
    uniform curl accumulates its two differences as they are, [(0 + d1) -
    d2], and the non-uniform curl accumulates the same two differences,
    under the same edge guards, each divided by [delta] first, [(0 + d1 /
    delta) - d2 / delta]; it does not multiply the accumulated result by
    [1 / delta].  Over the rationals, for a non-zero [delta], the two ways
    give the same number. *)
Theorem curl_nonuniform_equal_spacing (t : tensor F) i j k p :
  inside Nx Ny Nz i j k -> 0 <= p < 3 ->
  (curl_E Nx Ny Nz t i j k p
     = scaled_curl_E Nx Ny Nz (fun d => d) t i j k p /\
   curl_E_with_nonuniform_grid Nx Ny Nz delta delta delta t i j k p
     = scaled_curl_E Nx Ny Nz (fun d => div d delta) t i j k p) /\
  (curl_H Nx Ny Nz t i j k p
     = scaled_curl_H (fun d => d) t i j k p /\
   curl_H_with_nonuniform_grid Nx Ny Nz delta delta delta t i j k p
     = scaled_curl_H (fun d => div d delta) t i j k p) /\
  (forall (b1 b2 : bool) (q1 q2 r : Q),
      ~ (r == 0)%Q ->
      (where_ b2 Qminus (where_ b1 Qplus 0 (q1 / r)) (q2 / r)
       == where_ b2 Qminus (where_ b1 Qplus 0 q1) q2 * (1 / r))%Q).
Proof.
  intros Hin Hp.
  destruct (inside_in_range Hin) as (Hi & Hj & Hk).
  destruct Hin as (Hi' & Hj' & Hk').
  assert (Hp' : p = 0 \/ p = 1 \/ p = 2) by lia.
  split; [|split].
  - destruct Hp' as [-> | [-> | ->]]; split;
      scaled_entry Hi Hj Hk Hi' Hj' Hk'.
  - destruct Hp' as [-> | [-> | ->]]; split;
      scaled_entry Hi Hj Hk Hi' Hj' Hk'.
  - intros b1 b2 q1 q2 r Hr. destruct b1, b2; unfold where_; field; exact Hr.
Qed.
End EqualSpacing.

(** The entry of the first counterexample, through the theorem: the same
    two differences, divided before they are accumulated. *)
Lemma curl_nonuniform_equal_spacing_witness :
  inside 1 2 2 0 0 0 /\
  curl_E_with_nonuniform_grid 1 2 2 um155 um155 um155
    (two_entries 1e302 1e302) 0 0 0 0
  = sub (add lit_0_0 (div 1e302%float um155)) (div 1e302%float um155).
Proof.
  assert (Hin : inside 1 2 2 0 0 0) by (unfold inside; lia).
  assert (Hp : 0 <= 0 < 3) by lia.
  split; [exact Hin|].
  destruct (@curl_nonuniform_equal_spacing float binary64 1 2 2 um155
              (two_entries 1e302 1e302) 0 0 0 0 Hin Hp) as ((_ & Hn) & _).
  rewrite Hn. vm_compute. reflexivity.
Defined.

Lemma exact_lit_0_0 : @lit_0_0 Qc exact = 0%Qc.
Proof. apply Qc_is_canon. reflexivity. Qed.


(** ** Distances and times to grid units *)

Lemma Qtrunc_nonneg (q : Q) : (0 <= q)%Q -> Qtrunc q = Qfloor q.
Proof.
  destruct q as [n d]. unfold Qle, Qtrunc, Qfloor. cbn. intros Hq.
  apply Z.quot_div_nonneg; lia.
Qed.

Lemma Qtrunc_neg (q : Q) : (q < 0)%Q -> Qtrunc q = Qceiling q.
Proof.
  destruct q as [n d]. unfold Qlt, Qtrunc, Qceiling, Qfloor. cbn. intros Hq.
  replace n with (- - n) at 1 by lia.
  rewrite Z.quot_opp_l by lia.
  rewrite Z.quot_div_nonneg by lia. reflexivity.
Qed.

Section Distances.
Context {F C : Type} {AF : Arith F}.
Variable g : Grid F C.

Lemma _handle_distance_spacing_of (d : number F) (ax : axis) :
  _handle_distance g d ax = gridpoints (spacing_of g ax) d.
Proof. destruct ax; reflexivity. Qed.

(** C9, amended.  An int is returned unchanged.  A float [v] is divided by
    the spacing of the axis, one half is added, both in the machine's
    arithmetic, and the sum [s] is truncated toward zero: its floor when it
    is not negative, its ceiling when it is negative.  This is the quotient
    rounded half up when the sum is not negative and the addition of one
    half was exact; otherwise it need not be. *)
Theorem handle_distance_truncates (ax : axis) :
  (forall n, _handle_distance g (PyInt n) ax = Ok n) /\
  (forall v s,
      eqb (spacing_of g ax) lit_0_0 = false ->
      value (add (div v (spacing_of g ax)) lit_0_5) = Finite s ->
      _handle_distance g (PyFloat v) ax = Ok (Qtrunc s) /\
      ((0 <= s)%Q -> Qtrunc s = Qfloor s) /\
      ((s < 0)%Q -> Qtrunc s = Qceiling s) /\
      (forall q,
          value (div v (spacing_of g ax)) = Finite q ->
          (s == q + (1 # 2))%Q -> (0 <= s)%Q ->
          round_half_up (div v (spacing_of g ax)) = Some (Qtrunc s))).
Proof.
  split.
  - intros n. rewrite _handle_distance_spacing_of. reflexivity.
  - intros v s Hs Hsum. rewrite _handle_distance_spacing_of.
    unfold gridpoints, py_truediv. rewrite Hs. cbn [bind Monad_result].
    unfold py_int. rewrite Hsum.
    split; [reflexivity|]. split; [apply Qtrunc_nonneg|].
    split; [apply Qtrunc_neg|].
    intros q Hq Hexact H0. unfold round_half_up. rewrite Hq.
    rewrite Qtrunc_nonneg by exact H0. now rewrite Hexact.
Qed.
End Distances.

(** C9, as stated, fails in two ways.  For a negative distance: with unit
    spacing, [-1.75] is converted to [-1], where rounding half up gives
    [-2].  And when the addition of one half rounds: the largest double
    below one half, [0.49999999999999994], plus [0.5] is [1.0] in binary64,
    so it is converted to [1], where rounding half up gives [0]. *)
Lemma handle_distance_not_half_up :
  (_handle_distance (unit_grid nat) (PyFloat (-1.75)%float) AxisX = Ok (-1) /\
   round_half_up (div (-1.75)%float (spacing_of (unit_grid nat) AxisX))
     = Some (-2)) /\
  (_handle_distance (unit_grid nat) (PyFloat 0.49999999999999994%float) AxisX
     = Ok 1 /\
   round_half_up
     (div 0.49999999999999994%float (spacing_of (unit_grid nat) AxisX))
     = Some 0).
Proof. repeat split; vm_compute; reflexivity. Qed.

(** One micrometre on the default spacing is 6.45 cells: the sum 6.95 is
    exact and the result is 6, the quotient rounded half up. *)
Lemma handle_distance_truncates_witness :
  _handle_distance (small_grid nat) (PyFloat 1e-6%float) AxisY = Ok 6 /\
  round_half_up (div 1e-6%float (spacing_of (small_grid nat) AxisY)) = Some 6.
Proof.
  pose (s := Qmake 7826820320147918 1125899906842624).
  pose (q := Qmake 7263870366726606 1125899906842624).
  assert (Hs : eqb (spacing_of (small_grid nat) AxisY) lit_0_0 = false)
    by (vm_compute; reflexivity).
  assert (Hsum : value (add (div 1e-6%float (spacing_of (small_grid nat) AxisY))
                            lit_0_5) = Finite s)
    by (vm_compute; reflexivity).
  assert (Hq : value (div 1e-6%float (spacing_of (small_grid nat) AxisY))
               = Finite q)
    by (vm_compute; reflexivity).
  assert (Hexact : (s == q + (1 # 2))%Q) by (vm_compute; reflexivity).
  assert (H0 : (0 <= s)%Q) by (unfold Qle; cbn; lia).
  destruct (handle_distance_truncates (small_grid nat) AxisY) as [_ Hf].
  destruct (Hf _ _ Hs Hsum) as (Hr & _ & _ & Hup).
  split; [exact Hr | exact (Hup q Hq Hexact H0)].
Defined.

(** ** The constructor *)

Section ConstructorFacts.
Context {F C : Type} {AF : Arith F}.
Variable c : F.
Variable sqrt : F -> F.
Variable pow_neg_half : F -> F.

(** Without [grid_spacing_x] the constructor cannot return a grid: it
    squares the argument itself, which is [None]. *)
Lemma init_without_spacing_x shape gs gsy gsz perm perm' courant :
  exists e,
    __init__ (C := C) c sqrt pow_neg_half shape gs None gsy gsz
      perm perm' courant = Raise e.
Proof.
  unfold __init__.
  destruct (_handle_tuple _ _ _ shape) as [[[nx ny] nz]|e];
    [|eexists; reflexivity].
  cbn [bind Monad_result].
  destruct (max_courant_number pow_neg_half (dimension nx ny nz)) as [mc|e];
    [|eexists; reflexivity].
  destruct courant as [v|]; [destruct (ltb mc v)|];
    eexists; reflexivity.
Qed.

(** C2.  The scenario of the specification, shape [(1, 60, 60)] with the
    default spacing [155e-9] and nothing else given, does not construct a
    grid: the time step is computed from the per-axis arguments, which are
    [None], and [None ** 2] raises a type error. *)
Theorem init_default_spacing_type_error :
  __init__ (C := C) c sqrt pow_neg_half
    [PyInt 1; PyInt 60; PyInt 60]
    (div (of_Z 155) (of_Z 1000000000)) None None None
    (Scalar lit_1_0) (Scalar lit_1_0) None
  = Raise TypeError.
Proof. reflexivity. Qed.

Lemma dimension_bounds nx ny nz : 0 <= dimension nx ny nz <= 3.
Proof.
  unfold dimension, int_of_bool.
  destruct (1 <? nx), (1 <? ny), (1 <? nz); lia.
Qed.

(** C3, amended.  When the shape is accepted and at least one axis is longer
    than one cell ([D >= 1]): a courant number above [D ** (-0.5)] is
    refused with a [ValueError]; and when the three per-axis spacings are
    given and usable, leaving the courant number out constructs a grid with
    [courant_number = 0.99 * D ** (-0.5)]. *)
Theorem courant_number_checked shape gs gsx gsy gsz perm perm' nx ny nz :
  _handle_tuple (or_default gs gsx) (or_default gs gsy) (or_default gs gsz)
    shape = Ok (nx, ny, nz) ->
  1 <= dimension nx ny nz ->
  (forall cn,
      ltb (pow_neg_half (of_Z (dimension nx ny nz))) cn = true ->
      __init__ (C := C) c sqrt pow_neg_half shape gs gsx gsy gsz
        perm perm' (Some cn) = Raise ValueError) /\
  (forall tx ty tz,
      axis_term nx gsx = Ok tx ->
      axis_term ny gsy = Ok ty ->
      axis_term nz gsz = Ok tz ->
      0 <= nx -> 0 <= ny -> 0 <= nz ->
      exists g,
        __init__ (C := C) c sqrt pow_neg_half shape gs gsx gsy gsz
          perm perm' None = Ok g /\
        D g = dimension nx ny nz /\
        courant_number g = mul lit_0_99 (pow_neg_half (of_Z (D g))) /\
        time_step g = div lit_0_99 (mul c (sqrt (add (add tx ty) tz)))).
Proof.
  intros Hshape Hd.
  assert (Hmax : max_courant_number pow_neg_half (dimension nx ny nz)
                 = Ok (pow_neg_half (of_Z (dimension nx ny nz)))).
  { unfold max_courant_number.
    destruct (Z.eqb_spec (dimension nx ny nz) 0); [lia | reflexivity]. }
  split.
  - intros cn Hcn. unfold __init__. fold (or_default gs gsx).
    fold (or_default gs gsy). fold (or_default gs gsz).
    rewrite Hshape. cbn [bind Monad_result]. rewrite Hmax, Hcn. reflexivity.
  - intros tx ty tz Hx Hy Hz Hnx Hny Hnz. eexists.
    unfold __init__. fold (or_default gs gsx).
    fold (or_default gs gsy). fold (or_default gs gsz).
    rewrite Hshape. cbn [bind Monad_result]. rewrite Hmax, Hx, Hy, Hz.
    replace ((nx <? 0) || (ny <? 0) || (nz <? 0)) with false.
    + cbn [ret]. split; [reflexivity | cbn; auto].
    + symmetry. rewrite !orb_false_iff. repeat split; apply Z.ltb_ge; lia.
Qed.
End ConstructorFacts.

(** C3, as stated, fails where no axis is longer than one cell: for the
    shape [(1, 1, 1)] the bound [D ** (-0.5)] is [0.0 ** (-0.5)], and the
    constructor raises [ZeroDivisionError] with or without a courant
    number. *)
Lemma courant_number_no_dimension :
  init_b64 nat [PyInt 1; PyInt 1; PyInt 1] um155
    (Some um155) (Some um155) (Some um155)
    (Scalar 1%float) (Scalar 1%float) None = Raise ZeroDivisionError /\
  init_b64 nat [PyInt 1; PyInt 1; PyInt 1] um155
    (Some um155) (Some um155) (Some um155)
    (Scalar 1%float) (Scalar 1%float) (Some 5%float)
    = Raise ZeroDivisionError.
Proof. split; reflexivity. Qed.

Lemma courant_number_checked_witness :
  init_b64 nat [PyInt 2; PyInt 1; PyInt 1] um155
    (Some um155) (Some um155) (Some um155)
    (Scalar 1%float) (Scalar 1%float) (Some 2%float) = Raise ValueError /\
  exists g,
    init_b64 nat [PyInt 2; PyInt 1; PyInt 1] um155
      (Some um155) (Some um155) (Some um155)
      (Scalar 1%float) (Scalar 1%float) None = Ok g /\
    courant_number g = lit_0_99.
Proof.
  assert (Hshape :
    _handle_tuple (or_default um155 (Some um155))
      (or_default um155 (Some um155)) (or_default um155 (Some um155))
      [PyInt 2; PyInt 1; PyInt 1] = Ok (2, 1, 1)) by reflexivity.
  assert (Hd : 1 <= dimension 2 1 1) by (vm_compute; discriminate).
  destruct (@courant_number_checked float nat binary64 c_vacuum
              PrimFloat.sqrt pow_neg_half_b64 _ um155 _ _ _
              (Scalar 1%float) (Scalar 1%float) _ _ _ Hshape Hd)
    as [Hhigh Hnone].
  split.
  - apply Hhigh. vm_compute. reflexivity.
  - destruct (Hnone (div 1%float (mul um155 um155)) 0%float 0%float)
      as (g & Hg & HD & Hc & _);
      try (vm_compute; reflexivity); try lia.
    exists g. split; [exact Hg |].
    rewrite Hc, HD. vm_compute. reflexivity.
Defined.

(** ** [reset] *)

Section ResetFacts.
Context {F C : Type} {AF : Arith F}.
Variable g : Grid F C.

(** What [reset] leaves alone, and the counter. *)
Lemma reset_frame :
  time_steps_passed (reset g) = 0 /\
  (Nx (reset g), Ny (reset g), Nz (reset g)) = (Nx g, Ny g, Nz g) /\
  (grid_spacing (reset g), grid_spacing_x (reset g),
   grid_spacing_y (reset g), grid_spacing_z (reset g))
    = (grid_spacing g, grid_spacing_x g, grid_spacing_y g, grid_spacing_z g) /\
  time_step (reset g) = time_step g /\
  courant_number (reset g) = courant_number g /\
  inverse_permittivity (reset g) = inverse_permittivity g /\
  inverse_permeability (reset g) = inverse_permeability g /\
  priority (reset g) = priority g /\
  (sources (reset g), boundaries (reset g),
   detectors (reset g), objects (reset g))
    = (sources g, boundaries g, detectors g, objects g).
Proof. cbn. rewrite Z.mul_0_r. repeat split. Qed.

(** The fields after [reset]: every entry multiplied by [0.0]. *)
Lemma reset_fields i j k p :
  E (reset g) i j k p = mul (E g i j k p) lit_0_0 /\
  H (reset g) i j k p = mul (H g i j k p) lit_0_0.
Proof. split; reflexivity. Qed.
End ResetFacts.

(** In exact arithmetic the product is zero. *)
Lemma reset_zero_exact (C : Type) (g : Grid Qc C) i j k p :
  E (reset g) i j k p = 0%Qc /\ H (reset g) i j k p = 0%Qc.
Proof.
  cbn [reset E H]. rewrite exact_lit_0_0. cbn [mul exact]. split; ring.
Qed.

(** In binary64 the product of a finite entry and [0.0] is a zero. *)
Lemma mul_zero_finite (x : float) (q : Q) :
  float_value x = Finite q ->
  PrimFloat.eqb (PrimFloat.mul x 0%float) 0%float = true.
Proof.
  unfold float_value. intros Hx.
  rewrite FloatAxioms.eqb_spec, FloatAxioms.mul_spec.
  change (Prim2SF 0%float) with (S754_zero false).
  destruct (Prim2SF x) as [s| s| |s m e]; try discriminate;
    destruct s; reflexivity.
Qed.

Lemma reset_zero_finite (C : Type) (g : Grid float C) i j k p q :
  value (E g i j k p) = Finite q ->
  eqb (E (reset g) i j k p) lit_0_0 = true.
Proof. intros Hq. exact (mul_zero_finite _ Hq). Qed.

(** The same through the methods alone: a grid built with permittivity
    [0.0] has an infinite inverse permittivity; one step makes its fields
    NaN, and [reset] leaves them NaN. *)
Example reset_after_zero_permittivity :
  exists g,
    init_b64 toy [PyInt 2; PyInt 1; PyInt 1] um155
      (Some um155) (Some um155) (Some um155)
      (Scalar 0%float) (Scalar 1%float) None = Ok g /\
    let w := snd (step 100 (mkWorld (set_animate (Some false) g) [] [])) in
    time_steps_passed (grid w) = 1 /\
    value (E (grid w) 0 0 0 0) = NotANumber /\
    value (E (reset (grid w)) 0 0 0 0) = NotANumber /\
    time_steps_passed (reset (grid w)) = 0.
Proof.
  eexists. split; [vm_compute; reflexivity|].
  repeat split; vm_compute; reflexivity.
Qed.

(** C4.  [reset] multiplies the fields by [0.0]; an entry that is infinite
    (or not a number) is not set to zero by that: it is NaN afterwards. *)
Theorem reset_keeps_non_finite :
  value (E overflowed_grid 0 0 0 2) = Infinite /\
  value (E (reset overflowed_grid) 0 0 0 2) = NotANumber /\
  eqb (E (reset overflowed_grid) 0 0 0 2) lit_0_0 = false /\
  time_steps_passed (reset overflowed_grid) = 0.
Proof. repeat split; vm_compute; reflexivity. Qed.

(** ** Region assignment *)

Section SetitemFacts.
Context {F C X : Type} {AF : Arith F} {CO : Collaborators F C X}.

(** C7.  A tuple key of more than three axis keys raises [KeyError] and
    leaves the world as it was: no call is recorded, so the component's
    registration is not invoked, and the grid is the same. *)
Theorem setitem_more_than_three_keys (ks : list (key F)) (attr : C)
    (w : world F C X) :
  (3 < length ks)%nat ->
  __setitem__ (Tuple ks) attr w = (Raise KeyError, w).
Proof.
  intros Hlen.
  destruct ks as [|k0 [|k1 [|k2 [|k3 ks]]]]; cbn in Hlen; try lia.
  reflexivity.
Qed.
End SetitemFacts.

Lemma setitem_more_than_three_keys_witness :
  __setitem__
    (Tuple [KNumber (PyInt 0); KNumber (PyInt 0); KNumber (PyInt 0);
            KNumber (PyInt 0)])
    Lamp (mkWorld (small_grid toy) [] [])
  = (Raise KeyError, mkWorld (small_grid toy) [] []).
Proof.
  apply setitem_more_than_three_keys. cbn. lia.
Defined.

(** With three keys the component is registered. *)
Example setitem_three_keys :
  let w := snd (__setitem__
                  (Tuple [KNumber (PyInt 0); slice_None; slice_None])
                  Lamp (mkWorld (small_grid toy) [] [])) in
  sources (grid w) = [Lamp] /\
  calls w = [Call_register_grid Lamp (Indices [0])
               (Slice None None None) (Slice None None None)].
Proof. split; reflexivity. Qed.

(** ** One step *)

Section StepFacts.
Context {F C X : Type} {AF : Arith F} {CO : Collaborators F C X}.

Lemma perform_all_app l1 l2 (w : world F C X) :
  perform_all (l1 ++ l2) w = perform_all l2 (perform_all l1 w).
Proof. apply fold_left_app. Qed.

Lemma calls_perform ev (w : world F C X) :
  calls (perform ev w) = calls w ++ [ev].
Proof.
  destruct ev; cbn;
    repeat match goal with
           | |- context [let (_, _) := ?h in _] => destruct h
           | |- context [match ?h with Ok _ => _ | Raise _ => _ end] =>
               destruct h as [[? ?]|?]
           end; reflexivity.
Qed.

Lemma calls_perform_all l (w : world F C X) :
  calls (perform_all l w) = calls w ++ l.
Proof.
  revert w. induction l as [|ev l IH]; intros w.
  - cbn. now rewrite app_nil_r.
  - change (perform_all (ev :: l) w) with (perform_all l (perform ev w)).
    rewrite IH, calls_perform, <- app_assoc. reflexivity.
Qed.

Lemma does_bind m1 m2 l1 l2 w :
  does m1 l1 w -> does m2 l2 (perform_all l1 w) ->
  does (m1 ;; m2) (l1 ++ l2) w.
Proof.
  unfold does. intros H1 H2. cbn [bind Monad_M].
  rewrite H1, perform_all_app. exact H2.
Qed.

Lemma does_self (k : Grid F C -> M F C X unit) l w :
  does (k (grid w)) l w -> does (g <- self ;; k g) l w.
Proof. unfold does. intros Hk. cbn [bind Monad_M]. exact Hk. Qed.

Lemma does_ret w : does (ret tt) [] w.
Proof. reflexivity. Qed.

Lemma does_invoke (ev : call F C) (h : hook F C X) (w : world F C X) :
  (forall w' : world F C X, perform ev w' =
     let (g, x) := h (grid w') (outside w') in
     mkWorld g x (calls w' ++ [ev])) ->
  does (invoke ev h) [ev] w.
Proof.
  intros Hev. unfold does, invoke. cbn. rewrite Hev.
  destruct (h (grid w) (outside w)). reflexivity.
Qed.

(** A loop over a collection makes one call per member, in order, as long
    as an invariant [P] of the world lets each body be read as its call. *)
Lemma does_for_each (P : world F C X -> Prop) (ev : C -> call F C)
    (body : C -> M F C X unit) :
  (forall o w, P w -> does (body o) [ev o] w /\ P (perform (ev o) w)) ->
  forall l w, P w ->
    does (for_each l body) (map ev l) w /\ P (perform_all (map ev l) w).
Proof.
  intros Hbody l. induction l as [|o l IH]; intros w HP.
  - split; [apply does_ret | exact HP].
  - destruct (Hbody o w HP) as [Ho HP'].
    destruct (IH _ HP') as [Hl HP''].
    split; [|exact HP''].
    cbn [for_each map]. change (ev o :: map ev l) with ([ev o] ++ map ev l).
    apply does_bind; assumption.
Qed.

Section Polite.
Hypothesis Hpolite : polite.

Lemma quiet_keeps ev (w : world F C X) :
  quiet ev = true ->
  setup (grid (perform ev w)) = setup (grid w) /\
  time_steps_passed (grid (perform ev w)) = time_steps_passed (grid w).
Proof.
  destruct Hpolite as (HpE & HuE & HdE & HpH & HuH & HdH & Hh5).
  destruct ev; cbn [quiet]; intros Hq; try discriminate; cbn [perform];
    try (split; reflexivity);
    match goal with
    | |- context [let (_, _) := ?h (grid w) (outside w) in _] =>
        let K := fresh in
        assert (K : keeps h) by auto;
        specialize (K (grid w) (outside w));
        destruct (h (grid w) (outside w)); exact K
    end.
Qed.

Lemma quiet_all_keep l (w : world F C X) :
  forallb quiet l = true ->
  setup (grid (perform_all l w)) = setup (grid w) /\
  time_steps_passed (grid (perform_all l w)) = time_steps_passed (grid w).
Proof.
  revert w. induction l as [|ev l IH]; intros w Hl.
  - split; reflexivity.
  - cbn [forallb] in Hl. apply andb_true_iff in Hl. destruct Hl as [Hev Hl].
    change (perform_all (ev :: l) w) with (perform_all l (perform ev w)).
    destruct (IH (perform ev w) Hl) as [Hs Ht].
    destruct (@quiet_keeps ev w Hev) as [Hs' Ht'].
    rewrite Hs, Ht. split; assumption.
Qed.

Lemma setup_parts (g g' : Grid F C) :
  setup g' = setup g ->
  boundaries g' = boundaries g /\ sources g' = sources g /\
  detectors g' = detectors g /\ grid_spacing_x g' = grid_spacing_x g /\
  grid_spacing_y g' = grid_spacing_y g /\
  grid_spacing_z g' = grid_spacing_z g /\ animate g' = animate g.
Proof. unfold setup. intros Hs. injection Hs. intuition. Qed.

Lemma phases_setup (g g' : Grid F C) :
  setup g' = setup g ->
  E_phase g' = E_phase g /\ H_phase g' = H_phase g /\
  step_calls g' = step_calls g.
Proof.
  intros Hs. destruct (setup_parts Hs) as (Hb & Hsr & Hd & Hx & Hy & Hz & _).
  unfold step_calls, E_phase, H_phase.
  rewrite Hb, Hsr, Hd, Hx, Hy, Hz. repeat split.
Qed.

Lemma quiet_map (ev : C -> call F C) (l : list C) :
  (forall o, quiet (ev o) = true) -> forallb quiet (map ev l) = true.
Proof.
  intros Hev. induction l as [|o l IH]; cbn; [reflexivity|].
  now rewrite Hev, IH.
Qed.

Lemma quiet_E_phase (g : Grid F C) : forallb quiet (E_phase g) = true.
Proof.
  unfold E_phase. rewrite !forallb_app, !quiet_map by reflexivity.
  reflexivity.
Qed.

Lemma quiet_H_phase (g : Grid F C) : forallb quiet (H_phase g) = true.
Proof.
  unfold H_phase. rewrite !forallb_app, !quiet_map by reflexivity.
  reflexivity.
Qed.

Lemma as_at_quiet (g0 : Grid F C) ev (w : world F C X) :
  quiet ev = true -> as_at g0 w -> as_at g0 (perform ev w).
Proof.
  unfold as_at. intros Hq [Hs Ht].
  destruct (@quiet_keeps ev w Hq) as [Hs' Ht']. split; congruence.
Qed.

Lemma as_at_quiet_all (g0 : Grid F C) l (w : world F C X) :
  forallb quiet l = true -> as_at g0 w -> as_at g0 (perform_all l w).
Proof.
  unfold as_at. intros Hq [Hs Ht].
  destruct (@quiet_all_keep l w Hq) as [Hs' Ht']. split; congruence.
Qed.

Lemma does_assign ev f w :
  (forall w' : world F C X,
      perform ev w' = mkWorld (f (grid w')) (outside w') (calls w' ++ [ev])) ->
  does (assign ev f) [ev] w.
Proof. intros Hev. unfold does, assign. cbn. now rewrite Hev. Qed.

(** A loop whose body is one call of a method that does not read the
    grid's attributes for its arguments. *)
Lemma does_loop (g0 : Grid F C) (ev : C -> call F C)
    (h : C -> hook F C X) l w :
  (forall o, quiet (ev o) = true) ->
  (forall o (w' : world F C X), perform (ev o) w' =
     let (g, x) := h o (grid w') (outside w') in
     mkWorld g x (calls w' ++ [ev o])) ->
  as_at g0 w ->
  does (for_each l (fun o => invoke (ev o) (h o))) (map ev l) w /\
  as_at g0 (perform_all (map ev l) w).
Proof.
  intros Hq Hev. apply (does_for_each (as_at g0)).
  intros o w' HP. split.
  - apply does_invoke. apply Hev.
  - apply as_at_quiet; [apply Hq | exact HP].
Qed.

Lemma update_E_does (g0 : Grid F C) (w : world F C X) :
  as_at g0 w -> does update_E (E_phase g0) w.
Proof.
  intros P0. unfold update_E, E_phase. apply does_self.
  destruct (setup_parts (proj1 P0)) as (Hb & _).
  rewrite Hb.
  destruct (@does_for_each (as_at g0)
              (fun b => Call_update_phi_E b (grid_spacing_x g0)
                          (grid_spacing_y g0) (grid_spacing_z g0))
              (fun boundary =>
                 g <- self ;;
                 invoke (Call_update_phi_E boundary (grid_spacing_x g)
                           (grid_spacing_y g) (grid_spacing_z g))
                        (on_update_phi_E boundary (grid_spacing_x g)
                           (grid_spacing_y g) (grid_spacing_z g))))
    with (l := boundaries g0) (w := w) as [H1 P1]; [|exact P0|].
  { intros o w' HP. split.
    - apply does_self.
      destruct (setup_parts (proj1 HP)) as (_ & _ & _ & Hx & Hy & Hz & _).
      rewrite Hx, Hy, Hz. apply does_invoke. reflexivity.
    - apply as_at_quiet; [reflexivity | exact HP]. }
  apply does_bind; [exact H1|].
  set (w1 := perform_all _ w) in *.
  apply does_bind; [apply does_assign; reflexivity|].
  assert (P2 : as_at g0 (perform_all [Set_E] w1))
    by (apply as_at_quiet_all; [reflexivity | exact P1]).
  set (w2 := perform_all [Set_E] w1) in *.
  apply does_self.
  destruct (setup_parts (proj1 P2)) as (Hb2 & _). rewrite Hb2.
  destruct (@does_loop g0 Call_update_E on_update_E (boundaries g0) w2)
    as [H3 P3]; [reflexivity | reflexivity | exact P2 |].
  apply does_bind; [exact H3|].
  set (w3 := perform_all _ w2) in *.
  apply does_self.
  destruct (setup_parts (proj1 P3)) as (_ & Hs3 & _). rewrite Hs3.
  destruct (@does_loop g0 Call_update_E on_update_E (sources g0) w3)
    as [H4 P4]; [reflexivity | reflexivity | exact P3 |].
  apply does_bind; [exact H4|].
  set (w4 := perform_all _ w3) in *.
  apply does_self.
  destruct (setup_parts (proj1 P4)) as (_ & _ & Hd4 & _). rewrite Hd4.
  apply (@does_loop g0 Call_detect_E on_detect_E (detectors g0) w4);
    [reflexivity | reflexivity | exact P4].
Qed.

Lemma update_H_does (g0 : Grid F C) (w : world F C X) :
  as_at g0 w -> does update_H (H_phase g0) w.
Proof.
  intros P0. unfold update_H, H_phase. apply does_self.
  destruct (setup_parts (proj1 P0)) as (Hb & _).
  rewrite Hb.
  destruct (@does_for_each (as_at g0)
              (fun b => Call_update_phi_H b (grid_spacing_x g0)
                          (grid_spacing_y g0) (grid_spacing_z g0))
              (fun boundary =>
                 g <- self ;;
                 invoke (Call_update_phi_H boundary (grid_spacing_x g)
                           (grid_spacing_y g) (grid_spacing_z g))
                        (on_update_phi_H boundary (grid_spacing_x g)
                           (grid_spacing_y g) (grid_spacing_z g))))
    with (l := boundaries g0) (w := w) as [H1 P1]; [|exact P0|].
  { intros o w' HP. split.
    - apply does_self.
      destruct (setup_parts (proj1 HP)) as (_ & _ & _ & Hx & Hy & Hz & _).
      rewrite Hx, Hy, Hz. apply does_invoke. reflexivity.
    - apply as_at_quiet; [reflexivity | exact HP]. }
  apply does_bind; [exact H1|].
  set (w1 := perform_all _ w) in *.
  apply does_bind; [apply does_assign; reflexivity|].
  assert (P2 : as_at g0 (perform_all [Set_H] w1))
    by (apply as_at_quiet_all; [reflexivity | exact P1]).
  set (w2 := perform_all [Set_H] w1) in *.
  apply does_self.
  destruct (setup_parts (proj1 P2)) as (Hb2 & _). rewrite Hb2.
  destruct (@does_loop g0 Call_update_H on_update_H (boundaries g0) w2)
    as [H3 P3]; [reflexivity | reflexivity | exact P2 |].
  apply does_bind; [exact H3|].
  set (w3 := perform_all _ w2) in *.
  apply does_self.
  destruct (setup_parts (proj1 P3)) as (_ & Hs3 & _). rewrite Hs3.
  destruct (@does_loop g0 Call_update_H on_update_H (sources g0) w3)
    as [H4 P4]; [reflexivity | reflexivity | exact P3 |].
  apply does_bind; [exact H4|].
  set (w4 := perform_all _ w3) in *.
  apply does_self.
  destruct (setup_parts (proj1 P4)) as (_ & _ & Hd4 & _). rewrite Hd4.
  apply (@does_loop g0 Call_detect_H on_detect_H (detectors g0) w4);
    [reflexivity | reflexivity | exact P4].
Qed.

Lemma step_does interval (g0 : Grid F C) (w : world F C X) :
  as_at g0 w -> no_frame_due interval g0 ->
  does (step interval) (step_calls g0) w.
Proof.
  intros P0 Hdue. unfold step, step_calls.
  apply does_bind; [now apply update_E_does|].
  assert (P1 : as_at g0 (perform_all (E_phase g0) w))
    by (apply as_at_quiet_all; [apply quiet_E_phase | exact P0]).
  set (w1 := perform_all (E_phase g0) w) in *.
  apply does_bind; [now apply update_H_does|].
  assert (P2 : as_at g0 (perform_all (H_phase g0) w1))
    by (apply as_at_quiet_all; [apply quiet_H_phase | exact P1]).
  set (w2 := perform_all (H_phase g0) w1) in *.
  destruct P2 as [Hs2 Ht2].
  destruct (setup_parts Hs2) as (_ & _ & _ & _ & _ & _ & Ha).
  unfold does, get_animate, self. cbn [bind Monad_M ret].
  rewrite Ha.
  destruct Hdue as [Hoff | (Hon & Hi & Hm)].
  - rewrite Hoff. reflexivity.
  - rewrite Hon. cbn [ret Monad_M raise].
    rewrite Ht2.
    destruct (Z.eqb_spec interval 0) as [|_]; [contradiction|].
    destruct (Z.eqb_spec (time_steps_passed g0 mod interval) 0) as [|_];
      [contradiction|].
    reflexivity.
Qed.

(** C1, amended.  With methods of the components that leave the
    collections, the spacings, the animate flag and the counter alone, and
    with the animate flag set and no frame due, one call of [step] returns
    normally having made exactly the calls of [step_calls], in that order:
    [update_phi_E] of every boundary with the three spacings, the
    assignment [E += c * time_step * inverse_permittivity * curl_H(H)],
    [update_E] of every boundary, [update_E] of every source, [detect_E] of
    every detector, the same for H with
    [H -= c * time_step * inverse_permeability * curl_E(E)], and last the
    counter, which is one more than before. *)
Theorem step_sequence (interval : Z) (w : world F C X) :
  no_frame_due interval (grid w) ->
  let w' := perform_all (step_calls (grid w)) w in
  step interval w = (Ok tt, w') /\
  calls w' = calls w ++ step_calls (grid w) /\
  time_steps_passed (grid w') = time_steps_passed (grid w) + 1 /\
  (forall w0 : world F C X, forall i j k p,
      E (grid (perform Set_E w0)) i j k p =
        add (E (grid w0) i j k p)
            (mul (mul (mul const_c (time_step (grid w0)))
                      (inverse_permittivity (grid w0) i j k p))
                 (curl_H_with_nonuniform_grid (Nx (grid w0)) (Ny (grid w0))
                    (Nz (grid w0)) (grid_spacing_x (grid w0))
                    (grid_spacing_y (grid w0)) (grid_spacing_z (grid w0))
                    (H (grid w0)) i j k p)) /\
      H (grid (perform Set_H w0)) i j k p =
        sub (H (grid w0) i j k p)
            (mul (mul (mul const_c (time_step (grid w0)))
                      (inverse_permeability (grid w0) i j k p))
                 (curl_E_with_nonuniform_grid (Nx (grid w0)) (Ny (grid w0))
                    (Nz (grid w0)) (grid_spacing_x (grid w0))
                    (grid_spacing_y (grid w0)) (grid_spacing_z (grid w0))
                    (E (grid w0)) i j k p))).
Proof.
  intros Hdue w'.
  assert (P0 : as_at (grid w) w) by (split; reflexivity).
  split; [exact (step_does P0 Hdue)|].
  split; [apply calls_perform_all|].
  split; [|intros; split; reflexivity].
  subst w'. unfold step_calls.
  rewrite !perform_all_app.
  assert (P2 : as_at (grid w)
                 (perform_all (H_phase (grid w))
                    (perform_all (E_phase (grid w)) w))).
  { apply as_at_quiet_all; [apply quiet_H_phase|].
    apply as_at_quiet_all; [apply quiet_E_phase | exact P0]. }
  destruct P2 as [_ Ht]. cbn. rewrite <- Ht. reflexivity.
Qed.
End Polite.
End StepFacts.

(** The methods of the toy components are polite. *)
Lemma toys_polite : @polite float toy (list float) toys.
Proof.
  repeat split; try (destruct o); try (destruct d); reflexivity.
Qed.

Lemma step_sequence_witness :
  no_frame_due 100 (grid lit_stage) /\
  step 100 lit_stage
    = (Ok tt, perform_all (step_calls (grid lit_stage)) lit_stage) /\
  calls (perform_all (step_calls (grid lit_stage)) lit_stage)
    = [Call_update_phi_E Wall um155 um155 um155; Set_E;
       Call_update_E Wall; Call_update_E Lamp; Call_detect_E Probe;
       Call_update_phi_H Wall um155 um155 um155; Set_H;
       Call_update_H Wall; Call_update_H Lamp; Call_detect_H Probe;
       Inc_time_steps_passed].
Proof.
  assert (Hdue : no_frame_due 100 (grid lit_stage)) by (left; reflexivity).
  destruct (@step_sequence _ _ _ _ _ toys_polite 100 lit_stage Hdue)
    as (Hs & Hc & _).
  split; [exact Hdue | split; [exact Hs | exact Hc]].
Defined.

(** C1, as stated, fails when a frame is due: with the animate flag true
    and the counter a multiple of the interval, [save_frame] is called
    between the H phase and the counter; and when the flag was never set,
    the step raises [AttributeError] after the two phases and the counter
    stays. *)
Lemma step_frame_due :
  fst (step 100 filming_stage) = Ok tt /\
  calls (snd (step 100 filming_stage))
    = E_phase stage ++ H_phase stage
      ++ [Call_save_frame; Inc_time_steps_passed] /\
  length (calls (snd (step 100 filming_stage)))
    <> length (step_calls (grid filming_stage)) /\
  fst (step 100 (mkWorld stage [] [])) = Raise AttributeError /\
  time_steps_passed (grid (snd (step 100 (mkWorld stage [] [])))) = 0.
Proof.
  repeat split; try (vm_compute; reflexivity).
  vm_compute. discriminate.
Qed.

(** The two phases on the stage: the lamp has added [1.0], the probe has
    read it, and the H phase has differenced it. *)
Example step_on_stage :
  let w' := snd (step 100 lit_stage) in
  E (grid w') 0 0 0 2 = 1%float /\
  hd 0%float (outside w') = 1%float /\
  time_steps_passed (grid w') = 1.
Proof. repeat split; vm_compute; reflexivity. Qed.

(** ** The run loop *)

Section RunFacts.
Context {F C X : Type} {AF : Arith F} {CO : Collaborators F C X}.
Hypothesis Hpolite : polite.

Lemma step_calls_keep (g0 : Grid F C) (w : world F C X) :
  setup (grid (perform_all (step_calls g0) w)) = setup (grid w) /\
  time_steps_passed (grid (perform_all (step_calls g0) w))
    = time_steps_passed (grid w) + 1.
Proof.
  unfold step_calls. rewrite !perform_all_app.
  destruct (@quiet_all_keep _ _ _ _ _ Hpolite (E_phase g0) w
              (quiet_E_phase g0)) as [Hs1 Ht1].
  destruct (@quiet_all_keep _ _ _ _ _ Hpolite (H_phase g0)
              (perform_all (E_phase g0) w) (quiet_H_phase g0)) as [Hs2 Ht2].
  set (w2 := perform_all (H_phase g0) (perform_all (E_phase g0) w)) in *.
  split.
  - transitivity (setup (grid w2)); [reflexivity | congruence].
  - transitivity (time_steps_passed (grid w2) + 1); [reflexivity|].
    rewrite Ht2, Ht1. reflexivity.
Qed.

Lemma for_range_steps interval (g0 : Grid F C) :
  animate g0 = Some false ->
  forall k w,
    setup (grid w) = setup g0 ->
    does (for_range k (step interval)) (concat (repeat (step_calls g0) k)) w
    /\ setup (grid (perform_all (concat (repeat (step_calls g0) k)) w))
       = setup g0
    /\ time_steps_passed
         (grid (perform_all (concat (repeat (step_calls g0) k)) w))
       = time_steps_passed (grid w) + Z.of_nat k.
Proof.
  intros Hoff k. induction k as [|k IH]; intros w Hs.
  - cbn [repeat concat for_range]. split; [apply does_ret|].
    cbn. split; [exact Hs | lia].
  - cbn [repeat concat for_range].
    destruct (phases_setup Hs) as (_ & _ & Hcalls).
    destruct (setup_parts Hs) as (_ & _ & _ & _ & _ & _ & Ha).
    assert (Hstep : does (step interval) (step_calls g0) w).
    { rewrite <- Hcalls. apply (step_does Hpolite).
      - split; reflexivity.
      - left. congruence. }
    destruct (step_calls_keep g0 w) as [Hs1 Ht1].
    destruct (IH (perform_all (step_calls g0) w)) as (Hrest & Hs2 & Ht2);
      [congruence|].
    split; [apply does_bind; assumption|].
    rewrite perform_all_app. split; [exact Hs2|].
    rewrite Ht2, Ht1. lia.
Qed.

Lemma run_does interval n w :
  animate (grid w) = Some false ->
  forall total,
    match total with
    | None => Raise TypeError
    | Some (PyInt m) => Ok m
    | Some (PyFloat v) => py_int (div v (time_step (grid w)))
    end = Ok n ->
    run total interval w = (Ok tt, ran n w).
Proof.
  intros Hoff total Hn. unfold run, ran.
  cbn [bind Monad_M self lift]. rewrite Hn.
  cbn [assign_silent get_animate bind Monad_M self grid set_total_time
         animate]. rewrite Hoff. cbn [ret Monad_M].
  set (w0 := mkWorld _ (outside w) (calls w)).
  assert (P0 : as_at (grid w) w0) by (split; reflexivity).
  change (detectors (set_total_time (Some n) (grid w)))
    with (detectors (grid w)).
  destruct (@does_loop _ _ _ _ _ Hpolite (grid w) Call_init_h5file
              on_init_h5file (detectors (grid w)) w0) as [H1 P1];
    [reflexivity | reflexivity | exact P0 |].
  unfold run_calls.
  apply does_bind; [exact H1|].
  apply (for_range_steps interval Hoff). exact (proj1 P1).
Qed.

(** *** Whatever the animate flag is set to *)

Lemma harmless_keeps ev h (w : world F C X) :
  harmless h ->
  (forall w' : world F C X, perform ev w' =
     match h (grid w') (outside w') with
     | Ok (g, x) => mkWorld g x (calls w' ++ [ev])
     | Raise _ => mkWorld (grid w') (outside w') (calls w' ++ [ev])
     end) ->
  does (invoke_fallible ev h) [ev] w /\
  setup (grid (perform ev w)) = setup (grid w) /\
  time_steps_passed (grid (perform ev w)) = time_steps_passed (grid w).
Proof.
  intros Hh Hev. unfold does, invoke_fallible.
  cbn [perform_all fold_left]. rewrite Hev.
  destruct (Hh (grid w) (outside w)) as (g' & x' & -> & Hs & Ht).
  repeat split; assumption.
Qed.

Lemma frame_due_setup interval (g g' : Grid F C) t :
  setup g' = setup g -> frame_due interval g' t = frame_due interval g t.
Proof.
  intros Hs. destruct (setup_parts Hs) as (_ & _ & _ & _ & _ & _ & Ha).
  unfold frame_due. now rewrite Ha.
Qed.

Lemma step_calls_at_setup interval (g g' : Grid F C) t :
  setup g' = setup g ->
  step_calls_at interval g' t = step_calls_at interval g t.
Proof.
  intros Hs. destruct (phases_setup Hs) as (HE & HH & _).
  unfold step_calls_at. now rewrite HE, HH, (frame_due_setup interval t Hs).
Qed.

(** One step, a frame due or not. *)
Lemma step_does_at interval a (w : world F C X) :
  animate (grid w) = Some a ->
  (a = true -> interval <> 0 /\ harmless on_save_frame) ->
  let l := step_calls_at interval (grid w) (time_steps_passed (grid w)) in
  does (step interval) l w /\
  setup (grid (perform_all l w)) = setup (grid w) /\
  time_steps_passed (grid (perform_all l w))
    = time_steps_passed (grid w) + 1.
Proof.
  intros Ha Hsafe l. subst l. unfold step_calls_at, step.
  assert (P0 : as_at (grid w) w) by (split; reflexivity).
  assert (P1 : as_at (grid w) (perform_all (E_phase (grid w)) w))
    by (apply (as_at_quiet_all Hpolite); [apply quiet_E_phase | exact P0]).
  set (w1 := perform_all (E_phase (grid w)) w) in *.
  assert (P2 : as_at (grid w) (perform_all (H_phase (grid w)) w1))
    by (apply (as_at_quiet_all Hpolite); [apply quiet_H_phase | exact P1]).
  rewrite !perform_all_app. fold w1.
  set (w2 := perform_all (H_phase (grid w)) w1) in *.
  destruct P2 as [Hs2 Ht2].
  destruct (setup_parts Hs2) as (_ & _ & _ & _ & _ & _ & Ha2).
  assert (Hframe :
    let lf := if frame_due interval (grid w) (time_steps_passed (grid w))
              then [Call_save_frame] else [] in
    does (if a then
            g <- self ;;
            if interval =? 0 then raise ZeroDivisionError
            else if time_steps_passed g mod interval =? 0
                 then invoke_fallible Call_save_frame on_save_frame
                 else ret tt
          else ret tt) lf w2 /\
    setup (grid (perform_all lf w2)) = setup (grid w) /\
    time_steps_passed (grid (perform_all lf w2))
      = time_steps_passed (grid w)).
  { unfold frame_due. rewrite Ha.
    destruct a.
    - destruct (Hsafe eq_refl) as [Hi Hsave].
      unfold does, self. cbn [bind Monad_M]. rewrite Ht2.
      destruct (Z.eqb_spec interval 0) as [|_]; [contradiction|].
      destruct (time_steps_passed (grid w) mod interval =? 0).
      + destruct (@harmless_keeps Call_save_frame on_save_frame w2 Hsave)
          as (Hd & Hs & Ht); [reflexivity|].
        split; [exact Hd|].
        cbn [perform_all fold_left]. split; congruence.
      + repeat split; assumption.
    - repeat split; assumption. }
  cbv zeta in Hframe. destruct Hframe as (Hf & Hs3 & Ht3).
  set (lf := if frame_due interval (grid w) (time_steps_passed (grid w))
             then [Call_save_frame] else []) in *.
  split; [|split].
  - apply does_bind; [exact (update_E_does Hpolite P0)|]. fold w1.
    apply does_bind; [exact (update_H_does Hpolite P1)|]. fold w2.
    assert (Hga : get_animate w2 = (Ok a, w2)).
    { unfold get_animate, self. cbn [bind Monad_M]. rewrite Ha2, Ha.
      reflexivity. }
    unfold does. cbn [bind Monad_M]. rewrite Hga.
    apply (@does_bind _ _ _ _ _ _ _ lf [Inc_time_steps_passed] w2);
      [exact Hf|].
    apply does_assign. reflexivity.
  - transitivity (setup (grid (perform_all lf w2))); [reflexivity | exact Hs3].
  - transitivity (time_steps_passed (grid (perform_all lf w2)) + 1);
      [reflexivity | now rewrite Ht3].
Qed.

Lemma for_range_steps_at interval a (g0 : Grid F C) :
  animate g0 = Some a ->
  (a = true -> interval <> 0 /\ harmless on_save_frame) ->
  forall k w,
    setup (grid w) = setup g0 ->
    let l := steps_calls interval g0 (time_steps_passed (grid w)) k in
    does (for_range k (step interval)) l w /\
    setup (grid (perform_all l w)) = setup g0 /\
    time_steps_passed (grid (perform_all l w))
      = time_steps_passed (grid w) + Z.of_nat k.
Proof.
  intros Ha Hsafe k. induction k as [|k IH]; intros w Hs l; subst l.
  - cbn [steps_calls for_range]. split; [apply does_ret|].
    cbn. split; [exact Hs | lia].
  - cbn [steps_calls for_range].
    destruct (setup_parts Hs) as (_ & _ & _ & _ & _ & _ & Haw).
    destruct (@step_does_at interval a w) as (Hstep & Hs1 & Ht1);
      [congruence | exact Hsafe |].
    rewrite (step_calls_at_setup interval _ Hs) in Hstep, Hs1, Ht1.
    set (l1 := step_calls_at interval g0 (time_steps_passed (grid w))) in *.
    destruct (IH (perform_all l1 w)) as (Hrest & Hs2 & Ht2); [congruence|].
    rewrite Ht1 in Hrest, Hs2, Ht2.
    split; [apply does_bind; assumption|].
    rewrite perform_all_app. split; [exact Hs2|].
    rewrite Ht2. lia.
Qed.

Lemma steps_calls_off interval (g : Grid F C) t k :
  animate g = Some false ->
  steps_calls interval g t k = concat (repeat (step_calls g) k).
Proof.
  intros Hoff. revert t. induction k as [|k IH]; intros t; [reflexivity|].
  cbn [steps_calls repeat concat]. rewrite IH.
  unfold step_calls_at, frame_due, step_calls. rewrite Hoff. reflexivity.
Qed.

Lemma run_float_as_int interval (w : world F C X) v q :
  value (div v (time_step (grid w))) = Finite q ->
  run (Some (PyFloat v)) interval w
    = run (Some (PyInt (Qtrunc q))) interval w.
Proof.
  intros Hq. unfold run. cbn [bind Monad_M self lift].
  unfold py_int. rewrite Hq. reflexivity.
Qed.

Lemma run_does_at interval a n (w : world F C X) :
  animate (grid w) = Some a ->
  (a = true -> interval <> 0 /\ frames_safe) ->
  run (Some (PyInt n)) interval w = (Ok tt, ran_at interval n w) /\
  time_steps_passed (grid (ran_at interval n w))
    = time_steps_passed (grid w) + Z.max 0 n.
Proof.
  intros Ha Hsafe. unfold run, ran_at, run_calls_at.
  cbn [bind Monad_M self lift].
  cbn [assign_silent get_animate bind Monad_M self grid set_total_time
         animate]. rewrite Ha. cbn [ret Monad_M].
  set (w0 := mkWorld _ (outside w) (calls w)).
  assert (P0 : as_at (grid w) w0) by (split; reflexivity).
  set (lf := match Some a with
             | Some true => [@Call_frames_folder F C]
             | _ => []
             end).
  assert (Hfold :
    does (if a then invoke_fallible Call_frames_folder on_frames_folder
          else ret tt) lf w0 /\
    as_at (grid w) (perform_all lf w0)).
  { subst lf. destruct a.
    - destruct (Hsafe eq_refl) as [_ [Hfolder _]].
      destruct (@harmless_keeps Call_frames_folder on_frames_folder w0 Hfolder)
        as (Hd & Hs & Ht); [reflexivity|].
      split; [exact Hd|]. cbn [perform_all fold_left].
      destruct P0. split; congruence.
    - split; [apply does_ret | exact P0]. }
  destruct Hfold as [Hd0 P0'].
  rewrite !perform_all_app.
  set (w0' := perform_all lf w0) in *.
  destruct (@does_loop _ _ _ _ _ Hpolite (grid w) Call_init_h5file
              on_init_h5file (detectors (grid w)) w0') as [H1 P1];
    [reflexivity | reflexivity | exact P0' |].
  set (w1 := perform_all (map Call_init_h5file (detectors (grid w))) w0') in *.
  assert (Hsafe' : a = true -> interval <> 0 /\ harmless on_save_frame).
  { intros Hat. destruct (Hsafe Hat) as [Hi [_ Hsave]]. now split. }
  destruct (@for_range_steps_at interval a (grid w) Ha Hsafe' (Z.to_nat n) w1
              (proj1 P1)) as (Hloop & _ & Ht).
  rewrite (proj2 P1) in Hloop, Ht.
  split.
  - unfold does in Hd0, H1, Hloop. cbn [ret Monad_M] in Hd0.
    rewrite Hd0. fold w0'.
    destruct (setup_parts (proj1 P0')) as (_ & _ & Hdet & _).
    change (grid (perform_all lf w0)) with (grid w0').
    rewrite Hdet, H1. fold w1. exact Hloop.
  - change (time_steps_passed (set_total_time (Some n) (grid w)))
      with (time_steps_passed (grid w)).
    rewrite Ht. lia.
Qed.

End RunFacts.

Section RunTruncates.
Context {F C X : Type} {AF : Arith F} {CO : Collaborators F C X}.

(** C8, amended.  In every state and with any components, [run] with a
    float whose quotient by the time step is finite does what [run] with
    the quotient truncated toward zero (not rounded) does.  And with polite
    components and the animate flag set, to false or to true (then with a
    non-zero interval and frame-capture collaborators that return normally
    and are polite too): [run] with an int returns normally having prepared
    the frames folder when the flag is true, opened the file of every
    detector and called [step] that many times (none for a negative count),
    each step saving a frame when one is due. *)
Theorem run_truncates (interval : Z) (w : world F C X) :
  (forall v q,
      value (div v (time_step (grid w))) = Finite q ->
      run (Some (PyFloat v)) interval w
        = run (Some (PyInt (Qtrunc q))) interval w) /\
  (polite ->
   forall a n,
      animate (grid w) = Some a ->
      (a = true -> interval <> 0 /\ frames_safe) ->
      run (Some (PyInt n)) interval w = (Ok tt, ran_at interval n w) /\
      calls (ran_at interval n w)
        = calls w ++ run_calls_at interval (grid w) n /\
      time_steps_passed (grid (ran_at interval n w))
        = time_steps_passed (grid w) + Z.max 0 n /\
      (a = false -> ran_at interval n w = ran n w)).
Proof.
  split.
  - intros v q. apply run_float_as_int.
  - intros Hpolite a n Ha Hsafe.
    destruct (@run_does_at _ _ _ _ _ Hpolite interval a n w Ha Hsafe)
      as [Hrun Ht].
    split; [exact Hrun|]. split; [|split; [exact Ht|]].
    + unfold ran_at. rewrite calls_perform_all. reflexivity.
    + intros ->. unfold ran_at, ran, run_calls_at, run_calls.
      rewrite Ha. now rewrite (@steps_calls_off _ _ interval _ _ _ Ha).
Qed.
End RunTruncates.

(** The small grid is what the constructor returns for the shape
    [(2, 1, 1)] with the three spacings given. *)
Lemma small_grid_constructed (C : Type) :
  init_b64 C [PyInt 2; PyInt 1; PyInt 1] um155
    (Some um155) (Some um155) (Some um155)
    (Scalar 1%float) (Scalar 1%float) None = Ok (small_grid C).
Proof. vm_compute. reflexivity. Qed.

(** C8, as stated, fails for a duration that is not a whole number of time
    steps: [1.4e-15] is 2.735 time steps of the small grid; the conversion
    [_handle_time] rounds it to 3, [run] truncates it to 2 and steps
    twice. *)
Lemma run_does_not_round :
  _handle_time (grid lit_stage) (PyFloat 1.4e-15%float) = Ok 3 /\
  fst (run (Some (PyFloat 1.4e-15%float)) 100 lit_stage) = Ok tt /\
  total_time (grid (snd (run (Some (PyFloat 1.4e-15%float)) 100 lit_stage)))
    = Some 2 /\
  time_steps_passed
    (grid (snd (run (Some (PyFloat 1.4e-15%float)) 100 lit_stage))) = 2.
Proof. repeat split; vm_compute; reflexivity. Qed.

(** The frame-capture collaborators of the toy components do nothing. *)
Lemma toys_frames_safe : @frames_safe float toy (list float) toys.
Proof. split; intros g x; exists g, x; repeat split. Qed.

(** [1.4e-15] on the filming stage: two steps, the first of which saves a
    frame; and on the stage that does not film. *)
Lemma run_truncates_witness :
  run (Some (PyFloat 1.4e-15%float)) 100 filming_stage
    = (Ok tt, ran_at 100 2 filming_stage) /\
  time_steps_passed (grid (ran_at 100 2 filming_stage)) = 2 /\
  calls (ran_at 100 2 filming_stage)
    = [Call_frames_folder; Call_init_h5file Probe]
      ++ E_phase stage ++ H_phase stage
      ++ [Call_save_frame; Inc_time_steps_passed]
      ++ E_phase stage ++ H_phase stage ++ [Inc_time_steps_passed] /\
  run (Some (PyFloat 1.4e-15%float)) 100 lit_stage
    = (Ok tt, ran 2 lit_stage).
Proof.
  destruct (@run_truncates _ _ _ _ _ 100 filming_stage) as (Hfloat & Hint).
  destruct (Hint toys_polite true 2 eq_refl) as (Hrun & Hcalls & Ht & _).
  { intros _. split; [discriminate | exact toys_frames_safe]. }
  destruct (@run_truncates _ _ _ _ _ 100 lit_stage) as (Hfloat' & Hint').
  destruct (Hint' toys_polite false 2 eq_refl) as (Hrun' & _ & _ & Hsame).
  { discriminate. }
  split; [|split; [exact Ht | split]].
  - rewrite (Hfloat 1.4e-15%float (Qmake 6159020146602148 2251799813685248))
      by (vm_compute; reflexivity).
    exact Hrun.
  - rewrite Hcalls. reflexivity.
  - rewrite (Hfloat' 1.4e-15%float (Qmake 6159020146602148 2251799813685248))
      by (vm_compute; reflexivity).
    rewrite <- (Hsame eq_refl). exact Hrun'.
Defined.

(** ** The animate flag *)

Section AnimateFacts.
Context {F C X : Type} {AF : Arith F} {CO : Collaborators F C X}.
Variable sqrt : F -> F.
Variable pow_neg_half : F -> F.

(** What every constructed grid looks like to [step] and [run]. *)
Lemma init_fresh shape gs gsx gsy gsz perm perm' courant (g : Grid F C) :
  __init__ const_c sqrt pow_neg_half shape gs gsx gsy gsz perm perm' courant
    = Ok g ->
  boundaries g = [] /\ sources g = [] /\ detectors g = [] /\
  animate g = None /\ time_steps_passed g = 0.
Proof.
  unfold __init__.
  destruct (_handle_tuple _ _ _ shape) as [[[nx ny] nz]|e];
    [|discriminate].
  cbn [bind Monad_result].
  destruct (max_courant_number pow_neg_half (dimension nx ny nz)) as [mc|e];
    [|discriminate].
  destruct courant as [v|]; [destruct (ltb mc v); [discriminate|]|];
    (destruct (axis_term nx gsx); [|discriminate]);
    (destruct (axis_term ny gsy); [|discriminate]);
    (destruct (axis_term nz gsz); [|discriminate]);
    (destruct ((nx <? 0) || (ny <? 0) || (nz <? 0)); [discriminate|]);
    intros Hg; injection Hg as <-; repeat split.
Qed.

(** [step] on a grid without components and without the flag: the two
    fields are assigned, then the flag is missed. *)
Lemma step_without_flag interval (w : world F C X) :
  boundaries (grid w) = [] -> sources (grid w) = [] ->
  detectors (grid w) = [] -> animate (grid w) = None ->
  let g1 := set_E (E_plus_curl (grid w)) (grid w) in
  let g2 := set_H (H_minus_curl g1) g1 in
  step interval w
    = (Raise AttributeError,
       mkWorld g2 (outside w) ((calls w ++ [Set_E]) ++ [Set_H])).
Proof.
  destruct w as [g x cs]. destruct g.
  cbn [grid outside calls boundaries sources detectors animate].
  intros -> -> -> ->. reflexivity.
Qed.

Lemma step_with_flag_off interval (w : world F C X) :
  boundaries (grid w) = [] -> sources (grid w) = [] ->
  detectors (grid w) = [] -> animate (grid w) = Some false ->
  fst (step interval w) = Ok tt.
Proof.
  destruct w as [g x cs]. destruct g.
  cbn [grid outside calls boundaries sources detectors animate].
  intros -> -> -> ->. reflexivity.
Qed.

Lemma run_without_flag interval n (w : world F C X) total :
  animate (grid w) = None ->
  match total with
  | None => Raise TypeError
  | Some (PyInt m) => Ok m
  | Some (PyFloat v) => py_int (div v (time_step (grid w)))
  end = Ok n ->
  run total interval w
    = (Raise AttributeError,
       mkWorld (set_total_time (Some n) (grid w)) (outside w) (calls w)).
Proof.
  intros Ha Hn. unfold run.
  cbn [bind Monad_M self lift]. rewrite Hn.
  cbn [assign_silent get_animate bind Monad_M self grid set_total_time
         animate]. rewrite Ha. reflexivity.
Qed.

(** C10, amended.  On a grid as the constructor returns it: the animate
    attribute is not there; [step] assigns the two fields, raises
    [AttributeError] at the frame check and leaves the counter at 0; [run]
    with an int, or with a float whose quotient by the time step is finite,
    assigns [total_time] and raises [AttributeError] before any detector
    file or step; and once the caller has set the flag to false, [step]
    returns normally. *)
Theorem animate_never_initialised shape gs gsx gsy gsz perm perm' courant
    (g : Grid F C) (x : X) (cs : list (call F C)) (interval : Z) :
  __init__ const_c sqrt pow_neg_half shape gs gsx gsy gsz perm perm' courant
    = Ok g ->
  let w := mkWorld g x cs in
  let g1 := set_E (E_plus_curl g) g in
  let g2 := set_H (H_minus_curl g1) g1 in
  animate g = None /\
  step interval w
    = (Raise AttributeError, mkWorld g2 x ((cs ++ [Set_E]) ++ [Set_H])) /\
  time_steps_passed g2 = 0 /\
  (forall n,
      run (Some (PyInt n)) interval w
        = (Raise AttributeError, mkWorld (set_total_time (Some n) g) x cs)) /\
  (forall v q,
      value (div v (time_step g)) = Finite q ->
      run (Some (PyFloat v)) interval w
        = (Raise AttributeError,
           mkWorld (set_total_time (Some (Qtrunc q)) g) x cs)) /\
  fst (step interval (mkWorld (set_animate (Some false) g) x cs)) = Ok tt.
Proof.
  intros Hg w g1 g2.
  destruct (init_fresh _ _ _ _ _ _ _ _ Hg) as (Hb & Hs & Hd & Ha & Ht).
  split; [exact Ha|].
  split; [exact (@step_without_flag interval w Hb Hs Hd Ha)|].
  split; [exact Ht|].
  split; [|split].
  - intros n. now apply (@run_without_flag interval n w (Some (PyInt n))).
  - intros v q Hq.
    apply (@run_without_flag interval (Qtrunc q) w (Some (PyFloat v)));
      [exact Ha|].
    cbn [grid w]. unfold py_int. now rewrite Hq.
  - apply step_with_flag_off; cbn; auto.
Qed.
End AnimateFacts.

(** C10, as stated, fails for [run()] itself: with the default [total]
    ([None]) the conversion [int(None)] raises [TypeError] before the flag
    is looked up. *)
Lemma run_default_type_error :
  init_b64 toy [PyInt 2; PyInt 1; PyInt 1] um155
    (Some um155) (Some um155) (Some um155)
    (Scalar 1%float) (Scalar 1%float) None = Ok (small_grid toy) /\
  run None 100 (mkWorld (small_grid toy) [] [])
    = (Raise TypeError, mkWorld (small_grid toy) [] []).
Proof. split; [apply small_grid_constructed | reflexivity]. Qed.

Lemma animate_never_initialised_witness :
  init_b64 toy [PyInt 2; PyInt 1; PyInt 1] um155
    (Some um155) (Some um155) (Some um155)
    (Scalar 1%float) (Scalar 1%float) None = Ok (small_grid toy) /\
  fst (step 100 (mkWorld (small_grid toy) [] [])) = Raise AttributeError /\
  fst (run (Some (PyInt 10)) 100 (mkWorld (small_grid toy) [] []))
    = Raise AttributeError.
Proof.
  pose proof (small_grid_constructed toy) as Hg.
  destruct (@animate_never_initialised float toy (list float) binary64 toys
              PrimFloat.sqrt pow_neg_half_b64
              [PyInt 2; PyInt 1; PyInt 1] um155
              (Some um155) (Some um155) (Some um155)
              (Scalar 1%float) (Scalar 1%float) None (small_grid toy)
              [] [] 100 Hg) as (_ & Hstep & _ & Hrun & _).
  split; [exact Hg | split].
  - rewrite Hstep. reflexivity.
  - rewrite (Hrun 10). reflexivity.
Defined.

(** * Further properties of the code *)

(** ** The constructor: what a constructed grid is *)

Section ConstructorMore.
Context {F C : Type} {AF : Arith F}.
Variable c : F.
Variable sqrt : F -> F.
Variable pow_neg_half : F -> F.

Lemma sizes_not_negative nx ny nz :
  (nx <? 0) || (ny <? 0) || (nz <? 0) = false ->
  0 <= nx /\ 0 <= ny /\ 0 <= nz.
Proof.
  intros Hn. rewrite !orb_false_iff in Hn. destruct Hn as [[Hx Hy] Hz].
  apply Z.ltb_ge in Hx, Hy, Hz. auto.
Qed.

(** Reading a successful construction backwards. *)
Lemma init_inversion shape gs gsx gsy gsz perm perm' courant (g : Grid F C) :
  __init__ c sqrt pow_neg_half shape gs gsx gsy gsz perm perm' courant
    = Ok g ->
  exists nx ny nz cn tx ty tz,
    _handle_tuple (or_default gs gsx) (or_default gs gsy)
      (or_default gs gsz) shape = Ok (nx, ny, nz) /\
    dimension nx ny nz <> 0 /\
    match courant with
    | None => cn = mul lit_0_99 (pow_neg_half (of_Z (dimension nx ny nz)))
    | Some v =>
        cn = v /\ ltb (pow_neg_half (of_Z (dimension nx ny nz))) v = false
    end /\
    axis_term nx gsx = Ok tx /\ axis_term ny gsy = Ok ty /\
    axis_term nz gsz = Ok tz /\
    0 <= nx /\ 0 <= ny /\ 0 <= nz /\
    g = mkGrid gs (or_default gs gsx) (or_default gs gsy) (or_default gs gsz)
          nx ny nz (dimension nx ny nz) cn
          (div lit_0_99 (mul c (sqrt (add (add tx ty) tz))))
          zeros zeros (inverse_of perm) (inverse_of perm')
          (fun _ _ _ => lit_0_0) 0 [] [] [] [] None None.
Proof.
  unfold __init__. fold (or_default gs gsx).
  fold (or_default gs gsy). fold (or_default gs gsz).
  destruct (_handle_tuple _ _ _ shape) as [[[nx ny] nz]|e];
    [|discriminate].
  cbn [bind Monad_result]. unfold max_courant_number.
  destruct (Z.eqb_spec (dimension nx ny nz) 0) as [|Hd]; [discriminate|].
  destruct courant as [v|];
    [destruct (ltb (pow_neg_half (of_Z (dimension nx ny nz))) v) eqn:Hv;
       [discriminate|]|];
    (destruct (axis_term nx gsx) as [tx|] eqn:Htx; [|discriminate]);
    (destruct (axis_term ny gsy) as [ty|] eqn:Hty; [|discriminate]);
    (destruct (axis_term nz gsz) as [tz|] eqn:Htz; [|discriminate]);
    (destruct ((nx <? 0) || (ny <? 0) || (nz <? 0)) eqn:Hn; [discriminate|]);
    intros Hg; injection Hg as <-;
    destruct (sizes_not_negative _ _ _ Hn) as (Hx & Hy & Hz);
    eexists nx, ny, nz, _, tx, ty, tz; repeat split; auto.
Qed.

(** X1.  The constructor returns a grid only when the three per-axis
    spacings are all given: leaving any one out makes it raise. *)
Theorem init_needs_all_spacings shape gs gsx gsy gsz perm perm' courant :
  gsx = None \/ gsy = None \/ gsz = None ->
  forall g : Grid F C,
    __init__ c sqrt pow_neg_half shape gs gsx gsy gsz perm perm' courant
      <> Ok g.
Proof.
  intros Hnone g Hg.
  destruct (init_inversion _ _ _ _ _ _ _ _ Hg)
    as (nx & ny & nz & cn & tx & ty & tz & _ & _ & _ & Hx & Hy & Hz & _).
  destruct Hnone as [-> | [-> | ->]]; discriminate.
Qed.

(** X2.  A shape that is not of length 3 is refused with [ValueError],
    whatever the other arguments. *)
Theorem init_shape_length shape gs gsx gsy gsz perm perm' courant :
  length shape <> 3%nat ->
  __init__ (C := C) c sqrt pow_neg_half shape gs gsx gsy gsz
    perm perm' courant = Raise ValueError.
Proof.
  intros Hlen.
  destruct shape as [|a [|b [|d [|e l]]]]; try reflexivity.
  now elim Hlen.
Qed.

(** X3.  A constructed grid has no negative size, between one and three
    axes longer than one cell, [D] counting them, zero fields, a zero
    counter, empty collections and no animate attribute. *)
Theorem init_invariants shape gs gsx gsy gsz perm perm' courant
    (g : Grid F C) :
  __init__ c sqrt pow_neg_half shape gs gsx gsy gsz perm perm' courant
    = Ok g ->
  0 <= Nx g /\ 0 <= Ny g /\ 0 <= Nz g /\
  D g = dimension (Nx g) (Ny g) (Nz g) /\ 1 <= D g <= 3 /\
  (forall i j k p, E g i j k p = lit_0_0 /\ H g i j k p = lit_0_0) /\
  (forall i j k, priority g i j k = lit_0_0) /\
  time_steps_passed g = 0 /\
  sources g = [] /\ boundaries g = [] /\ detectors g = [] /\
  objects g = [] /\ animate g = None.
Proof.
  intros Hg.
  destruct (init_inversion _ _ _ _ _ _ _ _ Hg)
    as (nx & ny & nz & cn & tx & ty & tz & _ & Hd & _ & _ & _ & _
        & Hx & Hy & Hz & ->).
  cbn. pose proof (dimension_bounds nx ny nz).
  repeat split; auto; lia.
Qed.

(** X4.  A shape of three ints is stored as it is, and the spacing of an
    axis is the per-axis argument; the inverse material tensors hold
    [1.0 / permittivity] and [1.0 / permeability] entry by entry. *)
Theorem init_stores_arguments a b d gs vx vy vz perm perm' courant
    (g : Grid F C) :
  __init__ c sqrt pow_neg_half [PyInt a; PyInt b; PyInt d] gs
    (Some vx) (Some vy) (Some vz) perm perm' courant = Ok g ->
  (Nx g, Ny g, Nz g) = (a, b, d) /\
  (grid_spacing g, grid_spacing_x g, grid_spacing_y g, grid_spacing_z g)
    = (gs, vx, vy, vz) /\
  (forall i j k p,
      inverse_permittivity g i j k p
        = div lit_1_0 match perm with
                      | Scalar v => v
                      | Array3 t => t i j k
                      | Array4 t => t i j k p
                      end /\
      inverse_permeability g i j k p
        = div lit_1_0 match perm' with
                      | Scalar v => v
                      | Array3 t => t i j k
                      | Array4 t => t i j k p
                      end).
Proof.
  intros Hg.
  destruct (init_inversion _ _ _ _ _ _ _ _ Hg)
    as (nx & ny & nz & cn & tx & ty & tz & Hshape & _ & _ & _ & _ & _
        & _ & _ & _ & ->).
  cbn in Hshape. injection Hshape as <- <- <-.
  cbn. repeat split.
Qed.

(** X5.  A courant number that is not above the bound [D ** (-0.5)] is
    stored unchanged. *)
Theorem init_keeps_courant_number shape gs gsx gsy gsz perm perm' cn
    (g : Grid F C) :
  __init__ c sqrt pow_neg_half shape gs gsx gsy gsz perm perm' (Some cn)
    = Ok g ->
  courant_number g = cn /\
  ltb (pow_neg_half (of_Z (D g))) cn = false.
Proof.
  intros Hg.
  destruct (init_inversion _ _ _ _ _ _ _ _ Hg)
    as (nx & ny & nz & cn' & tx & ty & tz & _ & _ & [-> Hcn] & _ & _ & _
        & _ & _ & _ & ->).
  cbn. auto.
Qed.
End ConstructorMore.

Lemma init_needs_all_spacings_witness :
  init_b64 nat [PyInt 2; PyInt 1; PyInt 1] um155
    (Some um155) None (Some um155)
    (Scalar 1%float) (Scalar 1%float) None <> Ok (small_grid nat).
Proof.
  apply (@init_needs_all_spacings float nat binary64 c_vacuum
           PrimFloat.sqrt pow_neg_half_b64).
  right. left. reflexivity.
Defined.

Lemma init_shape_length_witness :
  init_b64 nat [PyInt 60; PyInt 60] um155
    (Some um155) (Some um155) (Some um155)
    (Scalar 1%float) (Scalar 1%float) None = Raise ValueError.
Proof.
  apply (@init_shape_length float nat binary64 c_vacuum
           PrimFloat.sqrt pow_neg_half_b64).
  cbn. discriminate.
Defined.

Lemma init_invariants_witness :
  init_b64 nat [PyInt 2; PyInt 1; PyInt 1] um155
    (Some um155) (Some um155) (Some um155)
    (Scalar 1%float) (Scalar 1%float) None = Ok (small_grid nat) /\
  D (small_grid nat) = dimension 2 1 1 /\
  time_steps_passed (small_grid nat) = 0.
Proof.
  pose proof (small_grid_constructed nat) as Hg.
  pose proof Hg as Hg'. unfold init_b64 in Hg'.
  destruct (@init_invariants float nat binary64 c_vacuum PrimFloat.sqrt
              pow_neg_half_b64 _ _ _ _ _ _ _ _ _ Hg')
    as (_ & _ & _ & Hd & _ & _ & _ & Ht & _).
  split; [exact Hg | split; [exact Hd | exact Ht]].
Defined.

Lemma init_stores_arguments_witness :
  init_b64 nat [PyInt 2; PyInt 1; PyInt 1] um155
    (Some um155) (Some um155) (Some um155)
    (Scalar 1%float) (Scalar 1%float) None = Ok (small_grid nat) /\
  (Nx (small_grid nat), Ny (small_grid nat), Nz (small_grid nat))
    = (2, 1, 1).
Proof.
  pose proof (small_grid_constructed nat) as Hg.
  pose proof Hg as Hg'. unfold init_b64 in Hg'.
  destruct (@init_stores_arguments float nat binary64 c_vacuum
              PrimFloat.sqrt pow_neg_half_b64 _ _ _ _ _ _ _ _ _ _ _ Hg')
    as (Hshape & _).
  split; [exact Hg | exact Hshape].
Defined.

(** The small grid built with the courant number [0.5]. *)
Lemma init_keeps_courant_number_witness :
  exists g,
    init_b64 nat [PyInt 2; PyInt 1; PyInt 1] um155
      (Some um155) (Some um155) (Some um155)
      (Scalar 1%float) (Scalar 1%float) (Some 0.5%float) = Ok g /\
    courant_number g = 0.5%float.
Proof.
  eexists. split; [vm_compute; reflexivity|].
  refine (proj1 (@init_keeps_courant_number float nat binary64 c_vacuum
                   PrimFloat.sqrt pow_neg_half_b64
                   [PyInt 2; PyInt 1; PyInt 1] um155
                   (Some um155) (Some um155) (Some um155)
                   (Scalar 1%float) (Scalar 1%float) 0.5%float _ _)).
  vm_compute. reflexivity.
Defined.

(** ** Conversions: errors *)

Section ConversionErrors.
Context {F C : Type} {AF : Arith F}.
Variable g : Grid F C.

(** X6.  On an axis whose spacing is zero, every float distance raises
    [ZeroDivisionError], while an int is still returned unchanged; with a
    non-zero spacing a float distance fails exactly when the sum
    [distance / spacing + 0.5] is infinite ([OverflowError]) or not a number
    ([ValueError]). *)
Theorem handle_distance_failures (ax : axis) (v : F) :
  (eqb (spacing_of g ax) lit_0_0 = true ->
     _handle_distance g (PyFloat v) ax = Raise ZeroDivisionError /\
     forall n, _handle_distance g (PyInt n) ax = Ok n) /\
  (eqb (spacing_of g ax) lit_0_0 = false ->
     forall e,
       _handle_distance g (PyFloat v) ax = Raise e <->
       (value (add (div v (spacing_of g ax)) lit_0_5) = Infinite
          /\ e = OverflowError) \/
       (value (add (div v (spacing_of g ax)) lit_0_5) = NotANumber
          /\ e = ValueError)).
Proof.
  rewrite !_handle_distance_spacing_of. unfold gridpoints, py_truediv.
  split; intros Hs; rewrite Hs.
  - split; [reflexivity|].
    intros n. now rewrite _handle_distance_spacing_of.
  - intros e. cbn [bind Monad_result]. unfold py_int.
    destruct (value (add (div v (spacing_of g ax)) lit_0_5)).
    + split; [discriminate | intros [[? _]|[? _]]; discriminate].
    + split.
      * intros He. injection He as <-. left. auto.
      * intros [[_ ->]|[? _]]; [reflexivity | discriminate].
    + split.
      * intros He. injection He as <-. right. auto.
      * intros [[? _]|[_ ->]]; [discriminate | reflexivity].
Qed.
End ConversionErrors.

Lemma handle_distance_failures_witness :
  _handle_distance (flat_grid nat) (PyFloat 1e-6%float) AxisX
    = Raise ZeroDivisionError /\
  _handle_distance (flat_grid nat) (PyInt 3) AxisX = Ok 3.
Proof.
  destruct (proj1 (handle_distance_failures (flat_grid nat) AxisX
                     1e-6%float)) as [Hf Hi].
  - vm_compute. reflexivity.
  - split; [exact Hf | exact (Hi 3)].
Defined.

(** ** The non-uniform curls *)

Section NonuniformCurls.
Context {F : Type} {AF : Arith F}.
Variables Nx Ny Nz : Z.
Variables sx sy sz : F.

Ltac nonuniform_entry :=
  intros Hin;
  destruct (inside_in_range Hin) as (Hi & Hj & Hk);
  destruct Hin as (Hi' & Hj' & Hk');
  unfold curl_E_with_nonuniform_grid, curl_H_with_nonuniform_grid,
    iadd, isub, selected, sl_in, getitem, t3_sub, t3_div, sl_at, sl_pos,
    zeros, where_, dx_fwd, dy_fwd, dz_fwd, dx_bwd, dy_bwd, dz_bwd;
  cbn [Z.eqb Pos.eqb andb];
  rewrite ?Hi, ?Hj, ?Hk, ?(ge0_leb Hi'), ?(ge0_leb Hj'), ?(ge0_leb Hk'),
    ?(lt_ltb Hi'), ?(lt_ltb Hj'), ?(lt_ltb Hk');
  cbn [andb];
  rewrite ?andb_true_r;
  reflexivity.

Lemma curl_E_nonuniform_0 (t : tensor F) i j k :
  inside Nx Ny Nz i j k ->
  curl_E_with_nonuniform_grid Nx Ny Nz sx sy sz t i j k 0 =
    where_ (k <? Nz - 1) sub
      (where_ (j <? Ny - 1) add lit_0_0 (div (dy_fwd t 2 i j k) sy))
      (div (dz_fwd t 1 i j k) sz).
Proof. nonuniform_entry. Qed.

Lemma curl_E_nonuniform_1 (t : tensor F) i j k :
  inside Nx Ny Nz i j k ->
  curl_E_with_nonuniform_grid Nx Ny Nz sx sy sz t i j k 1 =
    where_ (i <? Nx - 1) sub
      (where_ (k <? Nz - 1) add lit_0_0 (div (dz_fwd t 0 i j k) sz))
      (div (dx_fwd t 2 i j k) sx).
Proof. nonuniform_entry. Qed.

Lemma curl_E_nonuniform_2 (t : tensor F) i j k :
  inside Nx Ny Nz i j k ->
  curl_E_with_nonuniform_grid Nx Ny Nz sx sy sz t i j k 2 =
    where_ (j <? Ny - 1) sub
      (where_ (i <? Nx - 1) add lit_0_0 (div (dx_fwd t 1 i j k) sx))
      (div (dy_fwd t 0 i j k) sy).
Proof. nonuniform_entry. Qed.

Lemma curl_H_nonuniform_0 (t : tensor F) i j k :
  inside Nx Ny Nz i j k ->
  curl_H_with_nonuniform_grid Nx Ny Nz sx sy sz t i j k 0 =
    where_ (1 <=? k) sub
      (where_ (1 <=? j) add lit_0_0 (div (dy_bwd t 2 i j k) sy))
      (div (dz_bwd t 1 i j k) sz).
Proof. nonuniform_entry. Qed.

Lemma curl_H_nonuniform_1 (t : tensor F) i j k :
  inside Nx Ny Nz i j k ->
  curl_H_with_nonuniform_grid Nx Ny Nz sx sy sz t i j k 1 =
    where_ (1 <=? i) sub
      (where_ (1 <=? k) add lit_0_0 (div (dz_bwd t 0 i j k) sz))
      (div (dx_bwd t 2 i j k) sx).
Proof. nonuniform_entry. Qed.

Lemma curl_H_nonuniform_2 (t : tensor F) i j k :
  inside Nx Ny Nz i j k ->
  curl_H_with_nonuniform_grid Nx Ny Nz sx sy sz t i j k 2 =
    where_ (1 <=? j) sub
      (where_ (1 <=? i) add lit_0_0 (div (dx_bwd t 1 i j k) sx))
      (div (dy_bwd t 0 i j k) sy).
Proof. nonuniform_entry. Qed.

(** X9.  The curls the step uses, [curl_E_with_nonuniform_grid] and
    [curl_H_with_nonuniform_grid], entry by entry inside the array: the
    zero the result starts from, plus and minus the two difference
    quotients, each divided by the spacing of the axis it is taken along
    and each present only where its neighbour exists (forward neighbours
    for E, backward ones for H). *)
Theorem curl_nonuniform_entries (t : tensor F) i j k :
  inside Nx Ny Nz i j k ->
  curl_E_with_nonuniform_grid Nx Ny Nz sx sy sz t i j k 0 =
    where_ (k <? Nz - 1) sub
      (where_ (j <? Ny - 1) add lit_0_0 (div (dy_fwd t 2 i j k) sy))
      (div (dz_fwd t 1 i j k) sz) /\
  curl_E_with_nonuniform_grid Nx Ny Nz sx sy sz t i j k 1 =
    where_ (i <? Nx - 1) sub
      (where_ (k <? Nz - 1) add lit_0_0 (div (dz_fwd t 0 i j k) sz))
      (div (dx_fwd t 2 i j k) sx) /\
  curl_E_with_nonuniform_grid Nx Ny Nz sx sy sz t i j k 2 =
    where_ (j <? Ny - 1) sub
      (where_ (i <? Nx - 1) add lit_0_0 (div (dx_fwd t 1 i j k) sx))
      (div (dy_fwd t 0 i j k) sy) /\
  curl_H_with_nonuniform_grid Nx Ny Nz sx sy sz t i j k 0 =
    where_ (1 <=? k) sub
      (where_ (1 <=? j) add lit_0_0 (div (dy_bwd t 2 i j k) sy))
      (div (dz_bwd t 1 i j k) sz) /\
  curl_H_with_nonuniform_grid Nx Ny Nz sx sy sz t i j k 1 =
    where_ (1 <=? i) sub
      (where_ (1 <=? k) add lit_0_0 (div (dz_bwd t 0 i j k) sz))
      (div (dx_bwd t 2 i j k) sx) /\
  curl_H_with_nonuniform_grid Nx Ny Nz sx sy sz t i j k 2 =
    where_ (1 <=? j) sub
      (where_ (1 <=? i) add lit_0_0 (div (dx_bwd t 1 i j k) sx))
      (div (dy_bwd t 0 i j k) sy).
Proof.
  intros Hin.
  rewrite (curl_E_nonuniform_0 t Hin), (curl_E_nonuniform_1 t Hin),
    (curl_E_nonuniform_2 t Hin), (curl_H_nonuniform_0 t Hin),
    (curl_H_nonuniform_1 t Hin), (curl_H_nonuniform_2 t Hin).
  repeat split.
Qed.

End NonuniformCurls.

Lemma curl_nonuniform_entries_witness :
  inside 2 2 2 1 1 1 /\
  curl_E_with_nonuniform_grid 2 2 2 um155 um155 um155 ramp 1 1 1 0
    = lit_0_0.
Proof.
  assert (Hin : inside 2 2 2 1 1 1) by (unfold inside; lia).
  split; [exact Hin|].
  rewrite (proj1 (curl_nonuniform_entries um155 um155 um155 ramp Hin)).
  reflexivity.
Defined.

(** ** Zero fields in binary64 *)

(** Zeros, finite numbers and divisors on the primitive floats. *)
Lemma zero_b64 (x : float) :
  is_zero x <-> exists s, Prim2SF x = S754_zero s.
Proof.
  unfold is_zero. cbn [eqb binary64]. rewrite FloatAxioms.eqb_spec.
  change (Prim2SF lit_0_0) with (S754_zero false).
  destruct (Prim2SF x) as [s| s| |s m e]; split;
    try (intros H; discriminate H); try (intros [? H]; discriminate H);
    try (destruct s; intros H; discriminate H).
  - intros _. now exists s.
  - reflexivity.
Qed.

Lemma finite_b64 (x : float) :
  is_finite x <->
  (exists s, Prim2SF x = S754_zero s) \/
  (exists s m e, Prim2SF x = S754_finite s m e).
Proof.
  unfold is_finite. cbn [value binary64]. unfold float_value.
  destruct (Prim2SF x) as [s| s| |s m e]; split.
  all: try (intros [q H]; discriminate H).
  all: try (intros [[? H]|(? & ? & ? & H)]; discriminate H).
  - intros _. left. now exists s.
  - intros _. eexists. reflexivity.
  - intros _. right. now exists s, m, e.
  - intros _. eexists. reflexivity.
Qed.

Lemma divides_b64 (d : float) :
  divides d <->
  (exists s, Prim2SF d = S754_infinity s) \/
  (exists s m e, Prim2SF d = S754_finite s m e).
Proof.
  unfold divides. cbn [eqb value binary64]. unfold float_value.
  rewrite FloatAxioms.eqb_spec.
  change (Prim2SF lit_0_0) with (S754_zero false).
  destruct (Prim2SF d) as [s| s| |s m e]; split.
  all: try (intros [H1 H2]; try discriminate H1; now elim H2).
  all: try (intros [[? H]|(? & ? & ? & H)]; discriminate H).
  - intros _. left. now exists s.
  - intros _. split; [destruct s; reflexivity | discriminate].
  - intros _. right. now exists s, m, e.
  - intros _. split; [destruct s; reflexivity | discriminate].
Qed.

Lemma add_zero_zero (x y : float) :
  is_zero x -> is_zero y -> is_zero (add x y).
Proof.
  rewrite !zero_b64. intros [sx Hx] [sy Hy]. cbn [add binary64].
  rewrite FloatAxioms.add_spec, Hx, Hy.
  destruct sx, sy; eexists; reflexivity.
Qed.

Lemma sub_zero_zero (x y : float) :
  is_zero x -> is_zero y -> is_zero (sub x y).
Proof.
  rewrite !zero_b64. intros [sx Hx] [sy Hy]. cbn [sub binary64].
  rewrite FloatAxioms.sub_spec, Hx, Hy.
  destruct sx, sy; eexists; reflexivity.
Qed.

Lemma div_zero (x d : float) :
  is_zero x -> divides d -> is_zero (div x d).
Proof.
  rewrite !zero_b64, divides_b64.
  intros [sx Hx] [[sd Hd]|(sd & m & e & Hd)]; cbn [div binary64];
    rewrite FloatAxioms.div_spec, Hx, Hd; eexists; reflexivity.
Qed.

Lemma mul_finite_zero (f x : float) :
  is_finite f -> is_zero x -> is_zero (mul f x).
Proof.
  rewrite !zero_b64, finite_b64.
  intros [[sf Hf]|(sf & m & e & Hf)] [sx Hx]; cbn [mul binary64];
    rewrite FloatAxioms.mul_spec, Hf, Hx; eexists; reflexivity.
Qed.

Lemma sub_self (x : float) : is_finite x -> is_zero (sub x x).
Proof.
  rewrite zero_b64, finite_b64.
  intros [[s Hx]|(s & m & e & Hx)]; cbn [sub binary64];
    rewrite FloatAxioms.sub_spec, Hx.
  - destruct s; eexists; reflexivity.
  - unfold SF64sub, SFsub. cbv zeta. rewrite Z.sub_diag.
    eexists. reflexivity.
Qed.

Lemma zero_lit : is_zero (@lit_0_0 float binary64).
Proof. reflexivity. Qed.

Section FlatFields.
Variables Nx Ny Nz : Z.
Variables sx sy sz : float.

Lemma two_terms_zero (b1 b2 : bool) (d1 d2 : float) :
  (b1 = true -> is_zero d1) -> (b2 = true -> is_zero d2) ->
  is_zero (where_ b2 sub (where_ b1 add lit_0_0 d1) d2).
Proof.
  intros H1 H2.
  assert (Hacc : is_zero (where_ b1 add lit_0_0 d1)).
  { destruct b1; cbn [where_]; [|apply zero_lit].
    apply add_zero_zero; [apply zero_lit | now apply H1]. }
  destruct b2; cbn [where_]; [|exact Hacc].
  apply sub_zero_zero; [exact Hacc | now apply H2].
Qed.

Ltac neighbour :=
  match goal with
  | |- _ = true -> _ =>
      let Hb := fresh in
      intros Hb;
      first [apply Z.ltb_lt in Hb | apply Z.leb_le in Hb]
  end.

(** The four curls of a flat field are zero inside the array; the
    non-uniform ones when the spacings can divide a zero. *)
Lemma curls_of_flat_field (t : tensor float) i j k p :
  flat Nx Ny Nz t ->
  inside Nx Ny Nz i j k -> 0 <= p < 3 ->
  is_zero (curl_E Nx Ny Nz t i j k p) /\
  is_zero (curl_H Nx Ny Nz t i j k p) /\
  (divides sx -> divides sy -> divides sz ->
   is_zero (curl_E_with_nonuniform_grid Nx Ny Nz sx sy sz t i j k p) /\
   is_zero (curl_H_with_nonuniform_grid Nx Ny Nz sx sy sz t i j k p)).
Proof.
  intros Hflat Hin Hp.
  assert (Hd : forall i' j' k' i'' j'' k'' q,
    inside Nx Ny Nz i' j' k' -> inside Nx Ny Nz i'' j'' k'' -> 0 <= q < 3 ->
    is_zero (sub (t i'' j'' k'' q) (t i' j' k' q)) /\
    (forall s, divides s ->
       is_zero (div (sub (t i'' j'' k'' q) (t i' j' k' q)) s))).
  { intros. split; [now apply Hflat|].
    intros s Hs. apply div_zero; [now apply Hflat | exact Hs]. }
  assert (Hp' : p = 0 \/ p = 1 \/ p = 2) by lia.
  pose proof Hin as (Hi & Hj & Hk).
  split; [|split; [|intros Hsx Hsy Hsz; split]];
    destruct Hp' as [-> | [-> | ->]];
    rewrite ?(curl_E_0 t Hin), ?(curl_E_1 t Hin), ?(curl_E_2 t Hin),
      ?(curl_H_0 t Hin), ?(curl_H_1 t Hin), ?(curl_H_2 t Hin),
      ?(curl_E_nonuniform_0 sx sy sz t Hin),
      ?(curl_E_nonuniform_1 sx sy sz t Hin),
      ?(curl_E_nonuniform_2 sx sy sz t Hin),
      ?(curl_H_nonuniform_0 sx sy sz t Hin),
      ?(curl_H_nonuniform_1 sx sy sz t Hin),
      ?(curl_H_nonuniform_2 sx sy sz t Hin);
    apply two_terms_zero; neighbour;
    unfold dx_fwd, dy_fwd, dz_fwd, dx_bwd, dy_bwd, dz_bwd;
    apply Hd; unfold inside; try assumption; lia.
Qed.

(** X11.  In binary64 the curls of a field that is the same in every cell,
    each component a finite number, are zero at every entry inside the
    array: [curl_E] and [curl_H] always, the non-uniform curls when the
    three spacings are neither zero nor NaN. *)
Theorem curl_of_uniform_field (u : Z -> float) (t : tensor float) i j k p :
  (forall i j k p, inside Nx Ny Nz i j k -> 0 <= p < 3 -> t i j k p = u p) ->
  (forall p, 0 <= p < 3 -> is_finite (u p)) ->
  inside Nx Ny Nz i j k -> 0 <= p < 3 ->
  is_zero (curl_E Nx Ny Nz t i j k p) /\
  is_zero (curl_H Nx Ny Nz t i j k p) /\
  (divides sx -> divides sy -> divides sz ->
   is_zero (curl_E_with_nonuniform_grid Nx Ny Nz sx sy sz t i j k p) /\
   is_zero (curl_H_with_nonuniform_grid Nx Ny Nz sx sy sz t i j k p)).
Proof.
  intros Ht Hu. apply curls_of_flat_field.
  intros i0 j0 k0 i1 j1 k1 q H0 H1 Hq.
  rewrite !Ht by assumption. apply sub_self. now apply Hu.
Qed.
End FlatFields.

Lemma curl_of_uniform_field_witness :
  is_zero (curl_E 2 2 2 uniform_field 0 0 0 0) /\
  is_zero (curl_H 2 2 2 uniform_field 1 1 1 2).
Proof.
  assert (Hu : forall p, 0 <= p < 3 -> is_finite (float_of_Z (1 + p))).
  { intros p Hp. assert (Hp' : p = 0 \/ p = 1 \/ p = 2) by lia.
    destruct Hp' as [-> | [-> | ->]]; eexists; vm_compute; reflexivity. }
  split.
  - refine (proj1 (@curl_of_uniform_field 2 2 2 1%float 1%float 1%float
                     (fun p => float_of_Z (1 + p)) uniform_field 0 0 0 0
                     _ Hu _ _)); unfold inside; try reflexivity; lia.
  - refine (proj1 (proj2 (@curl_of_uniform_field 2 2 2 1%float 1%float 1%float
                     (fun p => float_of_Z (1 + p)) uniform_field 1 1 1 2
                     _ Hu _ _))); unfold inside; try reflexivity; lia.
Defined.

Section Vacuum.
Context {C X : Type} {CO : Collaborators float C X}.

(** X12.  In binary64, on a grid without components, with the animate flag
    off, spacings that are neither zero nor NaN and finite factors
    [c * time_step * inverse_permittivity] and
    [c * time_step * inverse_permeability] inside the array: a step of
    fields that are zero inside the array returns normally, leaves them
    zero there and advances the counter by one. *)
Theorem step_keeps_zero_fields (interval : Z) (w : world float C X) :
  let g := grid w in
  boundaries g = [] -> sources g = [] -> detectors g = [] ->
  animate g = Some false ->
  divides (grid_spacing_x g) -> divides (grid_spacing_y g) ->
  divides (grid_spacing_z g) ->
  (forall i j k p,
      inside (Nx g) (Ny g) (Nz g) i j k -> 0 <= p < 3 ->
      is_zero (E g i j k p) /\ is_zero (H g i j k p) /\
      is_finite (mul (mul const_c (time_step g))
                     (inverse_permittivity g i j k p)) /\
      is_finite (mul (mul const_c (time_step g))
                     (inverse_permeability g i j k p))) ->
  let w' := snd (step interval w) in
  fst (step interval w) = Ok tt /\
  (forall i j k p,
      inside (Nx g) (Ny g) (Nz g) i j k -> 0 <= p < 3 ->
      is_zero (E (grid w') i j k p) /\ is_zero (H (grid w') i j k p)) /\
  time_steps_passed (grid w') = time_steps_passed g + 1.
Proof.
  destruct w as [g x cs].
  destruct g as [gs gsx gsy gsz nx ny nz d cn dt e h ip im pr tsp
                 srcs bnds dets objs an tot].
  cbv zeta.
  cbn [grid outside calls boundaries sources detectors animate E H
         time_steps_passed Nx Ny Nz grid_spacing_x grid_spacing_y
         grid_spacing_z time_step inverse_permittivity inverse_permeability].
  intros -> -> -> -> Hsx Hsy Hsz Hz.
  split; [reflexivity|]. split; [|reflexivity].
  assert (Hflat : forall t : tensor float,
    (forall i j k p, inside nx ny nz i j k -> 0 <= p < 3 ->
       is_zero (t i j k p)) -> flat nx ny nz t).
  { intros t Ht i j k i' j' k' p H0 H1 Hp.
    apply sub_zero_zero; now apply Ht. }
  assert (HE' : forall i j k p,
    inside nx ny nz i j k -> 0 <= p < 3 ->
    is_zero
      (add (e i j k p)
         (mul (mul (mul const_c dt) (ip i j k p))
            (curl_H_with_nonuniform_grid nx ny nz gsx
               gsy gsz h i j k p)))).
  { intros i j k p Hin Hp.
    destruct (Hz i j k p Hin Hp) as (HE & _ & Hf & _).
    apply add_zero_zero; [exact HE|].
    apply mul_finite_zero; [exact Hf|].
    apply (curls_of_flat_field gsx gsy
             gsz); try assumption.
    apply Hflat. intros. now apply Hz. }
  intros i j k p Hin Hp. split.
  - now apply HE'.
  - cbn. unfold H_minus_curl, E_plus_curl.
    cbn [E H Nx Ny Nz grid_spacing_x grid_spacing_y grid_spacing_z
           time_step inverse_permeability inverse_permittivity set_E].
    destruct (Hz i j k p Hin Hp) as (_ & HH & _ & Hf).
    apply sub_zero_zero; [exact HH|].
    apply mul_finite_zero; [exact Hf|].
    apply (curls_of_flat_field gsx gsy
             gsz); try assumption.
    apply Hflat. exact HE'.
Qed.
End Vacuum.

Lemma step_keeps_zero_fields_witness :
  fst (step 100 dark_room) = Ok tt /\
  is_zero (E (grid (snd (step 100 dark_room))) 1 0 0 2) /\
  time_steps_passed (grid (snd (step 100 dark_room))) = 1.
Proof.
  assert (Hs : divides um155) by (split; [reflexivity | discriminate]).
  destruct (@step_keeps_zero_fields toy (list float) toys 100 dark_room)
    as (Hok & Hz & Ht); try reflexivity; try exact Hs.
  - intros i j k p _ _. repeat split; try reflexivity;
      eexists; vm_compute; reflexivity.
  - split; [exact Hok | split; [|exact Ht]].
    apply Hz; unfold inside; cbn; lia.
Defined.

(** ** A step that does not reach the counter *)

Section StepFailures.
Context {F C X : Type} {AF : Arith F} {CO : Collaborators F C X}.
Hypothesis Hpolite : polite.

(** The world after the two phases, read from the grid they start on. *)
Lemma phases_done (w : world F C X) :
  let w2 := perform_all (E_phase (grid w) ++ H_phase (grid w)) w in
  update_E w = (Ok tt, perform_all (E_phase (grid w)) w) /\
  update_H (perform_all (E_phase (grid w)) w) = (Ok tt, w2) /\
  as_at (grid w) w2 /\
  calls w2 = calls w ++ E_phase (grid w) ++ H_phase (grid w).
Proof.
  intros w2. subst w2. rewrite perform_all_app.
  assert (P0 : as_at (grid w) w) by (split; reflexivity).
  assert (P1 : as_at (grid w) (perform_all (E_phase (grid w)) w))
    by (apply (as_at_quiet_all Hpolite); [apply quiet_E_phase | exact P0]).
  split; [exact (update_E_does Hpolite P0)|].
  split; [exact (update_H_does Hpolite P1)|].
  split.
  - apply (as_at_quiet_all Hpolite); [apply quiet_H_phase | exact P1].
  - rewrite !calls_perform_all, app_assoc. reflexivity.
Qed.

(** X13.  With polite components on any grid whose animate attribute was
    never set, [step] runs the two phases in full (every method is called,
    both fields are assigned) and then raises [AttributeError]; the counter
    is not advanced. *)
Theorem step_flag_missing (interval : Z) (w : world F C X) :
  animate (grid w) = None ->
  let w2 := perform_all (E_phase (grid w) ++ H_phase (grid w)) w in
  step interval w = (Raise AttributeError, w2) /\
  calls w2 = calls w ++ E_phase (grid w) ++ H_phase (grid w) /\
  time_steps_passed (grid w2) = time_steps_passed (grid w).
Proof.
  intros Ha w2.
  destruct (phases_done w) as (HE & HH & [Hs Ht] & Hc).
  fold w2 in HH, Hs, Ht, Hc.
  split; [|split; assumption].
  unfold step. cbn [bind Monad_M]. rewrite HE, HH.
  unfold get_animate, self. cbn [bind Monad_M].
  destruct (setup_parts Hs) as (_ & _ & _ & _ & _ & _ & Ha2).
  rewrite Ha2, Ha. reflexivity.
Qed.

(** X14.  With polite components and the animate flag on, an interval of
    zero makes [step] raise [ZeroDivisionError] after the two phases; the
    counter is not advanced. *)
Theorem step_zero_interval (w : world F C X) :
  animate (grid w) = Some true ->
  let w2 := perform_all (E_phase (grid w) ++ H_phase (grid w)) w in
  step 0 w = (Raise ZeroDivisionError, w2) /\
  time_steps_passed (grid w2) = time_steps_passed (grid w).
Proof.
  intros Ha w2.
  destruct (phases_done w) as (HE & HH & [Hs Ht] & Hc).
  fold w2 in HH, Hs, Ht, Hc.
  split; [|assumption].
  unfold step. cbn [bind Monad_M]. rewrite HE, HH.
  unfold get_animate, self. cbn [bind Monad_M].
  destruct (setup_parts Hs) as (_ & _ & _ & _ & _ & _ & Ha2).
  rewrite Ha2, Ha. reflexivity.
Qed.

(** X15.  With polite components, when a frame is due (flag on, counter a
    multiple of the non-zero interval), [step] calls [save_frame] after the
    two phases: if it returns, the counter is advanced after it; if it
    raises, the step raises the same error and the counter is not
    advanced. *)
Theorem step_saves_frame (interval : Z) (w : world F C X) :
  animate (grid w) = Some true ->
  interval <> 0 ->
  time_steps_passed (grid w) mod interval = 0 ->
  let w2 := perform_all (E_phase (grid w) ++ H_phase (grid w)) w in
  match on_save_frame (grid w2) (outside w2) with
  | Ok _ =>
      step interval w
        = (Ok tt, perform_all [Call_save_frame; Inc_time_steps_passed] w2)
  | Raise e =>
      step interval w = (Raise e, perform Call_save_frame w2) /\
      time_steps_passed (grid (perform Call_save_frame w2))
        = time_steps_passed (grid w)
  end.
Proof.
  intros Ha Hi Hm w2.
  destruct (phases_done w) as (HE & HH & [Hs Ht] & Hc).
  fold w2 in HH, Hs, Ht, Hc.
  destruct (setup_parts Hs) as (_ & _ & _ & _ & _ & _ & Ha2).
  assert (Hstep : step interval w =
                  (x <- invoke_fallible Call_save_frame on_save_frame ;;
                   assign Inc_time_steps_passed
                     (fun g => set_time_steps_passed
                                 (time_steps_passed g + 1) g)) w2).
  { unfold step. cbn [bind Monad_M]. rewrite HE, HH.
    unfold get_animate, self. cbn [bind Monad_M].
    rewrite Ha2, Ha. cbn [ret Monad_M]. rewrite Ht.
    destruct (Z.eqb_spec interval 0) as [|_]; [contradiction|].
    rewrite Hm. reflexivity. }
  rewrite Hstep. cbn [bind Monad_M]. unfold invoke_fallible.
  cbn [perform_all fold_left perform].
  destruct (on_save_frame (grid w2) (outside w2)) as [[g' x']|e].
  - reflexivity.
  - split; [reflexivity | exact Ht].
Qed.
End StepFailures.

Lemma step_flag_missing_witness :
  animate (grid unlit_stage) = None /\
  fst (step 100 unlit_stage) = Raise AttributeError /\
  length (calls (snd (step 100 unlit_stage))) = 10%nat.
Proof.
  assert (Ha : animate (grid unlit_stage) = None) by reflexivity.
  destruct (@step_flag_missing _ _ _ _ _ toys_polite 100 unlit_stage Ha)
    as (Hs & Hc & _).
  split; [exact Ha | split].
  - rewrite Hs. reflexivity.
  - rewrite Hs. cbn [snd]. rewrite Hc. reflexivity.
Defined.

Lemma step_zero_interval_witness :
  animate (grid filming_stage) = Some true /\
  fst (step 0 filming_stage) = Raise ZeroDivisionError.
Proof.
  assert (Ha : animate (grid filming_stage) = Some true) by reflexivity.
  destruct (@step_zero_interval _ _ _ _ _ toys_polite filming_stage Ha)
    as (Hs & _).
  split; [exact Ha | rewrite Hs; reflexivity].
Defined.

Lemma step_saves_frame_witness :
  time_steps_passed (grid filming_stage) mod 100 = 0 /\
  step 100 filming_stage
    = (Ok tt,
       perform_all [Call_save_frame; Inc_time_steps_passed]
         (perform_all (E_phase (grid filming_stage)
                       ++ H_phase (grid filming_stage)) filming_stage)).
Proof.
  assert (Ha : animate (grid filming_stage) = Some true) by reflexivity.
  assert (Hi : 100 <> 0) by discriminate.
  assert (Hm : time_steps_passed (grid filming_stage) mod 100 = 0)
    by reflexivity.
  split; [exact Hm|].
  exact (@step_saves_frame _ _ _ _ _ toys_polite 100 filming_stage Ha Hi Hm).
Defined.

(** ** The run loop: conversions that fail, runs in a row *)

Section RunMore.
Context {F C X : Type} {AF : Arith F} {CO : Collaborators F C X}.

(** X16.  [run] with a float whose quotient by the time step is infinite
    raises [OverflowError], with one whose quotient is not a number
    [ValueError], and with [None] [TypeError]; in the three cases nothing
    has been assigned or called. *)
Theorem run_total_not_a_count (interval : Z) (w : world F C X) :
  run None interval w = (Raise TypeError, w) /\
  (forall v,
      value (div v (time_step (grid w))) = Infinite ->
      run (Some (PyFloat v)) interval w = (Raise OverflowError, w)) /\
  (forall v,
      value (div v (time_step (grid w))) = NotANumber ->
      run (Some (PyFloat v)) interval w = (Raise ValueError, w)).
Proof.
  split; [reflexivity|].
  split; intros v Hv; unfold run; cbn [bind Monad_M self lift];
    unfold py_int; rewrite Hv; reflexivity.
Qed.

(** X17.  With the animate flag on, [run] prepares the frames folder right
    after assigning [total_time]; if that fails, [run] raises the same
    error before any detector file is opened and before any step. *)
Theorem run_frames_folder_fails (interval n : Z) (w : world F C X) e :
  animate (grid w) = Some true ->
  on_frames_folder (set_total_time (Some n) (grid w)) (outside w) = Raise e ->
  run (Some (PyInt n)) interval w
    = (Raise e,
       mkWorld (set_total_time (Some n) (grid w)) (outside w)
         (calls w ++ [Call_frames_folder])).
Proof.
  destruct w as [g x cs]. cbn [grid outside calls]. intros Ha He.
  unfold run, get_animate, self, lift, assign_silent, invoke_fallible.
  cbn [bind Monad_M grid outside calls ret].
  change (animate (set_total_time (Some n) g)) with (animate g).
  rewrite Ha. cbn [bind Monad_M grid outside calls ret].
  rewrite He. reflexivity.
Qed.

Hypothesis Hpolite : polite.

(** What a finished run leaves of the setup and of the counter. *)
Lemma ran_keeps (n : Z) (w : world F C X) interval :
  animate (grid w) = Some false ->
  run (Some (PyInt n)) interval w = (Ok tt, ran n w) /\
  setup (grid (ran n w)) = setup (grid w) /\
  time_steps_passed (grid (ran n w))
    = time_steps_passed (grid w) + Z.max 0 n.
Proof.
  intros Hoff.
  split; [now apply (run_does Hpolite)|].
  unfold ran, run_calls. rewrite perform_all_app.
  set (w0 := mkWorld _ (outside w) (calls w)).
  assert (P0 : as_at (grid w) w0) by (split; reflexivity).
  destruct (@does_loop _ _ _ _ _ Hpolite (grid w) Call_init_h5file
              on_init_h5file (detectors (grid w)) w0) as [_ P1];
    [reflexivity | reflexivity | exact P0 |].
  destruct (@for_range_steps _ _ _ _ _ Hpolite interval (grid w) Hoff
              (Z.to_nat n) _ (proj1 P1)) as (_ & Hs & Ht).
  split; [exact Hs|]. rewrite Ht, (proj2 P1). lia.
Qed.

(** X18.  With polite components and the animate flag off, two runs in a
    row return normally, make the calls of the first run followed by those
    of the second (the detector files are opened again), and advance the
    counter by the two step counts, a negative count counting for none. *)
Theorem run_twice (a b interval : Z) (w : world F C X) :
  animate (grid w) = Some false ->
  let w2 := ran b (ran a w) in
  (run (Some (PyInt a)) interval ;; run (Some (PyInt b)) interval) w
    = (Ok tt, w2) /\
  calls w2 = calls w ++ run_calls (grid w) a ++ run_calls (grid w) b /\
  time_steps_passed (grid w2)
    = time_steps_passed (grid w) + Z.max 0 a + Z.max 0 b.
Proof.
  intros Hoff w2.
  destruct (ran_keeps a w interval Hoff) as (Ha & Hsa & Hta).
  assert (Hoff' : animate (grid (ran a w)) = Some false).
  { destruct (setup_parts Hsa) as (_ & _ & _ & _ & _ & _ & Han).
    congruence. }
  destruct (ran_keeps b (ran a w) interval Hoff') as (Hb & _ & Htb).
  split; [|split].
  - cbn [bind Monad_M]. rewrite Ha. exact Hb.
  - subst w2. unfold ran at 1. rewrite calls_perform_all. cbn [calls].
    unfold ran at 1. rewrite calls_perform_all. cbn [calls].
    assert (Hcalls : run_calls (grid (ran a w)) b = run_calls (grid w) b).
    { unfold run_calls.
      destruct (setup_parts Hsa) as (_ & _ & Hd & _).
      destruct (phases_setup Hsa) as (_ & _ & Hsc).
      now rewrite Hd, Hsc. }
    rewrite Hcalls, app_assoc. reflexivity.
  - subst w2. rewrite Htb, Hta. reflexivity.
Qed.
End RunMore.

Lemma run_total_not_a_count_witness :
  run (Some (PyFloat infinity)) 100 lit_stage
    = (Raise OverflowError, lit_stage).
Proof.
  apply (proj1 (proj2 (@run_total_not_a_count float toy (list float)
                         binary64 toys 100 lit_stage))).
  vm_compute. reflexivity.
Defined.

Lemma run_twice_witness :
  animate (grid lit_stage) = Some false /\
  time_steps_passed
    (grid (snd ((run (Some (PyInt 2)) 100 ;; run (Some (PyInt 3)) 100)
                  lit_stage))) = 5.
Proof.
  assert (Hoff : animate (grid lit_stage) = Some false) by reflexivity.
  destruct (@run_twice _ _ _ _ _ toys_polite 2 3 100 lit_stage Hoff)
    as (Hr & _ & Ht).
  split; [exact Hoff|]. rewrite Hr. cbn [snd]. rewrite Ht. reflexivity.
Defined.

Lemma run_frames_folder_fails_witness :
  animate (grid filming_stage) = Some true /\
  @run float toy (list float) binary64 no_folder (Some (PyInt 3)) 100
    filming_stage
  = (Raise TypeError,
     mkWorld (set_total_time (Some 3) (grid filming_stage)) []
       [Call_frames_folder]).
Proof.
  assert (Ha : animate (grid filming_stage) = Some true) by reflexivity.
  split; [exact Ha|].
  apply (@run_frames_folder_fails float toy (list float) binary64 no_folder
           100 3 filming_stage TypeError Ha).
  reflexivity.
Defined.

(** ** Keys and region assignment *)

Section KeyFacts.
Context {F C : Type} {AF : Arith F}.
Variable g : Grid F C.

Lemma handle_distance_error (v : number F) (ax : axis) e :
  _handle_distance g v ax = Raise e -> conversion_error e.
Proof.
  rewrite _handle_distance_spacing_of. unfold gridpoints, py_truediv.
  destruct v as [n|v]; [discriminate|].
  destruct (eqb (spacing_of g ax) lit_0_0).
  - intros He. injection He as <-. left. reflexivity.
  - cbn [bind Monad_result]. unfold py_int.
    destruct (value _); intros He; try discriminate;
      injection He as <-; unfold conversion_error; auto.
Qed.

Lemma handle_part_error ax p e :
  handle_part g ax p = Raise e -> conversion_error e.
Proof.
  destruct p as [[n|v]|]; try discriminate. cbn [handle_part].
  destruct (_handle_distance g (PyFloat v) ax) eqn:Hd; [discriminate|].
  cbn [bind Monad_result]. intros He. injection He as <-.
  exact (handle_distance_error _ _ Hd).
Qed.

Lemma handle_each_spec ax (l : list (number F)) :
  match handle_each g ax l with
  | Ok ns => Forall2 (fun v n => _handle_distance g v ax = Ok n) l ns
  | Raise e => conversion_error e
  end.
Proof.
  induction l as [|v l IH]; cbn [handle_each]; [constructor|].
  destruct (_handle_distance g v ax) eqn:Hv; cbn [bind Monad_result].
  - destruct (handle_each g ax l); cbn [bind Monad_result ret].
    + constructor; assumption.
    + exact IH.
  - exact (handle_distance_error _ _ Hv).
Qed.

Lemma handle_single_key_error (k : key F) ax e :
  _handle_single_key g k ax = Raise e -> conversion_error e.
Proof.
  destruct k as [v|l|a b d]; cbn [_handle_single_key].
  - destruct (_handle_distance g v ax) eqn:Hv; [discriminate|].
    cbn [bind Monad_result]. intros He. injection He as <-.
    exact (handle_distance_error _ _ Hv).
  - pose proof (handle_each_spec ax l) as Hl.
    destruct (handle_each g ax l); [discriminate|].
    cbn [bind Monad_result]. intros He. injection He as <-. exact Hl.
  - unfold _handle_slice.
    destruct (handle_part g ax a) eqn:Ha; cbn [bind Monad_result];
      [|intros He; injection He as <-; exact (handle_part_error _ _ Ha)].
    destruct (handle_part g ax b) eqn:Hb; cbn [bind Monad_result];
      [|intros He; injection He as <-; exact (handle_part_error _ _ Hb)].
    destruct (handle_part g ax d) eqn:Hd; cbn [bind Monad_result];
      [discriminate
      |intros He; injection He as <-; exact (handle_part_error _ _ Hd)].
Qed.

(** X19.  A key that holds no float (ints, sequences of ints, slices whose
    parts are ints or [None]) is normalised without looking at the grid:
    the conversion cannot fail, even with a zero spacing, and returns the
    ints as they are. *)
Theorem handle_single_key_integral (k : key F) (ax : axis) (r : region F) :
  integral_region k = Some r ->
  _handle_single_key g k ax = Ok r.
Proof.
  destruct k as [[n|v]|l|a b d]; cbn [integral_region int_of_number].
  - intros Hr. injection Hr as <-.
    cbn [_handle_single_key]. rewrite _handle_distance_spacing_of.
    reflexivity.
  - discriminate.
  - destruct (ints_of l) as [ns|] eqn:Hl; [|discriminate].
    intros Hr. injection Hr as <-. cbn [_handle_single_key].
    replace (handle_each g ax l) with (@Ok (list Z) ns); [reflexivity|].
    revert ns Hl. induction l as [|v l IH]; intros ns Hl.
    + injection Hl as <-. reflexivity.
    + cbn [ints_of] in Hl. destruct v as [n|v]; [|discriminate].
      cbn [int_of_number] in Hl.
      destruct (ints_of l) as [ns'|]; [|discriminate].
      injection Hl as <-. cbn [handle_each].
      rewrite _handle_distance_spacing_of. cbn [gridpoints bind Monad_result].
      rewrite <- (IH ns' eq_refl). reflexivity.
  - destruct (no_float a && no_float b && no_float d) eqn:Hn; [|discriminate].
    intros Hr. injection Hr as <-.
    rewrite !andb_true_iff in Hn. destruct Hn as [[Ha Hb] Hd].
    cbn [_handle_single_key]. unfold _handle_slice.
    assert (Hp : forall p, no_float p = true -> handle_part g ax p = Ok p)
      by (intros [[n|v]|]; [reflexivity | discriminate | reflexivity]).
    rewrite (Hp a Ha), (Hp b Hb), (Hp d Hd). reflexivity.
Qed.

(** X20.  A sequence key is normalised element by element: when the
    conversion returns, the result is a list of indices as long as the key,
    each the conversion of the element at its place; a key that is a single
    number gives the one-element list of its conversion. *)
Theorem handle_single_key_elementwise (ax : axis) :
  (forall l r,
      _handle_single_key g (KSeq l) ax = Ok r ->
      exists ns,
        r = Indices ns /\ length ns = length l /\
        Forall2 (fun v n => _handle_distance g v ax = Ok n) l ns) /\
  (forall v r,
      _handle_single_key g (KNumber v) ax = Ok r ->
      exists n, r = Indices [n] /\ _handle_distance g v ax = Ok n).
Proof.
  split.
  - intros l r. cbn [_handle_single_key].
    pose proof (handle_each_spec ax l) as Hl.
    destruct (handle_each g ax l) as [ns|]; [|discriminate].
    cbn [bind Monad_result ret]. intros Hr. injection Hr as <-.
    exists ns. split; [reflexivity|]. split; [|exact Hl].
    symmetry. exact (Forall2_length Hl).
  - intros v r. cbn [_handle_single_key].
    destruct (_handle_distance g v ax) as [n|]; [|discriminate].
    cbn [bind Monad_result ret]. intros Hr. injection Hr as <-.
    exists n. auto.
Qed.
End KeyFacts.

Section SetitemMore.
Context {F C X : Type} {AF : Arith F} {CO : Collaborators F C X}.

(** The assignment once the three axis keys are chosen. *)
Lemma setitem_three (k0 k1 k2 : key F) (attr : C) (w : world F C X) :
  __setitem__ (Tuple [k0; k1; k2]) attr w =
    match _handle_single_key (grid w) k0 AxisX with
    | Raise e => (Raise e, w)
    | Ok rx =>
        match _handle_single_key (grid w) k1 AxisY with
        | Raise e => (Raise e, w)
        | Ok ry =>
            match _handle_single_key (grid w) k2 AxisZ with
            | Raise e => (Raise e, w)
            | Ok rz => (Ok tt, perform (Call_register_grid attr rx ry rz) w)
            end
        end
    end.
Proof.
  unfold __setitem__. cbn [bind Monad_M ret self lift].
  destruct (_handle_single_key (grid w) k0 AxisX); [|reflexivity].
  destruct (_handle_single_key (grid w) k1 AxisY); [|reflexivity].
  destruct (_handle_single_key (grid w) k2 AxisZ); [|reflexivity].
  unfold invoke. cbn [perform].
  destruct (on_register_grid attr a a0 a1 (grid w) (outside w)).
  reflexivity.
Qed.

(** X21.  A key of fewer than three axis keys stands for the full range
    of the missing axes: [grid[k] = attr] and [grid[(k,)] = attr] do what
    [grid[k, :, :] = attr] does, and [grid[k0, k1] = attr] what
    [grid[k0, k1, :] = attr] does; the regions registered for the missing
    axes are the slice [None:None:None]. *)
Theorem setitem_pads_with_full_slices (k0 k1 : key F) (attr : C)
    (w : world F C X) :
  __setitem__ (NotTuple k0) attr w
    = __setitem__ (Tuple [k0; slice_None; slice_None]) attr w /\
  __setitem__ (Tuple [k0]) attr w
    = __setitem__ (Tuple [k0; slice_None; slice_None]) attr w /\
  __setitem__ (Tuple [k0; k1]) attr w
    = __setitem__ (Tuple [k0; k1; slice_None]) attr w /\
  (forall rx ry,
      _handle_single_key (grid w) k0 AxisX = Ok rx ->
      _handle_single_key (grid w) k1 AxisY = Ok ry ->
      __setitem__ (NotTuple k0) attr w
        = (Ok tt, perform (Call_register_grid attr rx
                             (Slice None None None) (Slice None None None)) w)
      /\
      __setitem__ (Tuple [k0; k1]) attr w
        = (Ok tt, perform (Call_register_grid attr rx ry
                             (Slice None None None)) w)).
Proof.
  split; [reflexivity|]. split; [reflexivity|]. split; [reflexivity|].
  intros rx ry Hx Hy. split.
  - change (__setitem__ (NotTuple k0) attr w)
      with (__setitem__ (Tuple [k0; slice_None; slice_None]) attr w).
    rewrite setitem_three, Hx. reflexivity.
  - change (__setitem__ (Tuple [k0; k1]) attr w)
      with (__setitem__ (Tuple [k0; k1; slice_None]) attr w).
    rewrite setitem_three, Hx, Hy. reflexivity.
Qed.

(** X22.  With a component whose [_register_grid] returns normally (as the
    methods of the components are taken to), region assignment is all or
    nothing: either it returns normally having made exactly one call, the
    component's [_register_grid] with three normalised regions, or it
    raises before that call and leaves the grid, the components and the
    record of calls exactly as they were. *)
Theorem setitem_all_or_nothing (k : item_key F) (attr : C)
    (w : world F C X) :
  (exists rx ry rz,
      __setitem__ k attr w
        = (Ok tt, perform (Call_register_grid attr rx ry rz) w) /\
      calls (snd (__setitem__ k attr w))
        = calls w ++ [Call_register_grid attr rx ry rz]) \/
  (exists e, __setitem__ k attr w = (Raise e, w)).
Proof.
  assert (Hthree : forall k0 k1 k2,
    (exists rx ry rz,
        __setitem__ (Tuple [k0; k1; k2]) attr w
          = (Ok tt, perform (Call_register_grid attr rx ry rz) w) /\
        calls (snd (__setitem__ (Tuple [k0; k1; k2]) attr w))
          = calls w ++ [Call_register_grid attr rx ry rz]) \/
    (exists e, __setitem__ (Tuple [k0; k1; k2]) attr w = (Raise e, w))).
  { intros k0 k1 k2. rewrite setitem_three.
    destruct (_handle_single_key (grid w) k0 AxisX) as [rx|e];
      [|right; eexists; reflexivity].
    destruct (_handle_single_key (grid w) k1 AxisY) as [ry|e];
      [|right; eexists; reflexivity].
    destruct (_handle_single_key (grid w) k2 AxisZ) as [rz|e];
      [|right; eexists; reflexivity].
    left. exists rx, ry, rz. split; [reflexivity|].
    cbn [snd]. apply calls_perform. }
  destruct k as [k0|[|k0 [|k1 [|k2 [|k3 ks]]]]].
  - apply (Hthree k0 slice_None slice_None).
  - right. eexists. reflexivity.
  - apply (Hthree k0 slice_None slice_None).
  - apply (Hthree k0 k1 slice_None).
  - apply Hthree.
  - right. eexists. reflexivity.
Qed.

(** X23.  With a component whose [_register_grid] returns normally,
    [__setitem__] raises [KeyError] only for a tuple key that is empty or
    longer than three; every other failure comes from a tuple of one to
    three keys or a single key, and is a conversion error of one of the
    axis keys ([ZeroDivisionError], [OverflowError] or [ValueError]). *)
Theorem setitem_errors (k : item_key F) (attr : C) (w : world F C X) e :
  fst (__setitem__ k attr w) = Raise e ->
  (e = KeyError /\
   exists ks, k = Tuple ks /\ (length ks = 0 \/ 3 < length ks)%nat) \/
  (conversion_error e /\
   forall ks, k = Tuple ks -> (1 <= length ks <= 3)%nat).
Proof.
  assert (Hthree : forall k0 k1 k2,
    fst (__setitem__ (Tuple [k0; k1; k2]) attr w) = Raise e ->
    conversion_error e).
  { intros k0 k1 k2. rewrite setitem_three.
    destruct (_handle_single_key (grid w) k0 AxisX) as [rx|e0] eqn:H0;
      [|cbn [fst]; intros He; injection He as <-;
        exact (handle_single_key_error _ _ _ H0)].
    destruct (_handle_single_key (grid w) k1 AxisY) as [ry|e1] eqn:H1;
      [|cbn [fst]; intros He; injection He as <-;
        exact (handle_single_key_error _ _ _ H1)].
    destruct (_handle_single_key (grid w) k2 AxisZ) as [rz|e2] eqn:H2;
      [discriminate
      |cbn [fst]; intros He; injection He as <-;
        exact (handle_single_key_error _ _ _ H2)]. }
  destruct k as [k0|[|k0 [|k1 [|k2 [|k3 ks]]]]]; intros He.
  - right. split; [exact (Hthree k0 slice_None slice_None He)|].
    discriminate.
  - left. cbn in He. injection He as <-. split; [reflexivity|].
    exists []. cbn. auto.
  - right. split; [exact (Hthree k0 slice_None slice_None He)|].
    intros ks Hk. injection Hk as <-. cbn. lia.
  - right. split; [exact (Hthree k0 k1 slice_None He)|].
    intros ks Hk. injection Hk as <-. cbn. lia.
  - right. split; [exact (Hthree k0 k1 k2 He)|].
    intros ks' Hk. injection Hk as <-. cbn. lia.
  - left. cbn in He. injection He as <-. split; [reflexivity|].
    eexists. split; [reflexivity|]. cbn. lia.
Qed.
End SetitemMore.

Lemma handle_single_key_integral_witness :
  _handle_single_key (flat_grid nat)
    (KSeq [PyInt 3; PyInt (-1); PyInt 0]) AxisX = Ok (Indices [3; -1; 0]) /\
  _handle_single_key (flat_grid nat)
    (KSlice (Some (PyInt 2)) None None) AxisX
    = Ok (Slice (Some (PyInt 2)) None None).
Proof.
  split; apply handle_single_key_integral; reflexivity.
Defined.

(** A sequence with a float: [0.6] on the unit grid is index 1. *)
Example handle_single_key_mixed :
  _handle_single_key (unit_grid nat)
    (KSeq [PyInt 4; PyFloat 0.6%float]) AxisY = Ok (Indices [4; 1]).
Proof. vm_compute. reflexivity. Qed.

Lemma setitem_errors_witness :
  fst (__setitem__ (Tuple []) Lamp unlit_stage) = Raise KeyError /\
  ((KeyError = KeyError /\
    exists ks : list (key float),
      Tuple (@nil (key float)) = Tuple ks /\
      (length ks = 0 \/ 3 < length ks)%nat) \/
   (conversion_error KeyError /\
    forall ks : list (key float),
      Tuple (@nil (key float)) = Tuple ks -> (1 <= length ks <= 3)%nat)).
Proof.
  assert (He : fst (__setitem__ (Tuple []) Lamp unlit_stage) = Raise KeyError)
    by reflexivity.
  split; [exact He|].
  exact (@setitem_errors float toy (list float) binary64 toys
           (Tuple []) Lamp unlit_stage KeyError He).
Defined.
